(** * spotify-display: a shallow embedding of the terminal "now playing" overlay

    The development follows [src/main.go] (the program) and, where the two
    differ, the second copy of the same program kept in [src/unnamed/part_000].
    Go [int]/[int64] values are modelled as [Z] with the 64-bit wrap-around
    written out where the code converts; Go strings are byte strings
    ([String.string]); Go [float64] arithmetic is modelled with the IEEE-754
    binary64 specification [spec_float] of the Standard Library (round to
    nearest even, [prec = 53], [emax = 1024]). *)

From Stdlib Require Import ZArith Lia List String Ascii Bool.
From Stdlib Require Import Floats.SpecFloat.
From Stdlib Require DecimalN DecimalFacts.
Import ListNotations.
Open Scope string_scope.
Open Scope Z_scope.
Set Warnings "-register-all".

(** ** Go integers *)

Module GoInt.

Definition two64 : Z := 2 ^ 64.
Definition two63 : Z := 2 ^ 63.

(** Two's-complement reinterpretation of a 64-bit pattern as [int64]
    (Go's [int64(v)] for [v : uint64], and the wrap of [int] arithmetic). *)
Definition wrap64 (z : Z) : Z :=
  let r := z mod two64 in
  if r <? two63 then r else r - two64.

Definition in_int64 (z : Z) : Prop := - two63 <= z < two63.

(** Go's [/] and [%] on integers truncate toward zero. *)
Definition div (a b : Z) : Z := Z.quot a b.
Definition rem (a b : Z) : Z := Z.rem a b.

(** [int] arithmetic as the program's 64-bit target does it. *)
Definition sub (a b : Z) : Z := wrap64 (a - b).
Definition add (a b : Z) : Z := wrap64 (a + b).

End GoInt.

(** ** Layout engine: [getTerminalSize] *)

Record TerminalSize := {
  width : Z;
  height : Z;
  startX : Z;
  startY : Z
}.

(** The fields of [SpotifyDisplay] (main.go) that the event loop reads and
    mutates; the bus handles are external and left out. *)
Record SpotifyDisplay := {
  cacheDir : string;
  minWidth : Z;
  contentHeight : Z;
  margin : Z;
  horizontalAlign : string;
  verticalAlign : string;
  currentArtURL : string
}.

(** [NewSpotifyDisplay]'s initial value (main.go lines 67-76). *)
Definition newSpotifyDisplay (cache : string) : SpotifyDisplay :=
  {| cacheDir := cache; minWidth := 60; contentHeight := 9; margin := 2;
     horizontalAlign := "center"; verticalAlign := "bottom";
     currentArtURL := "" |}.

(** main.go, [getTerminalSize]: two [switch] statements with a [default]
    (center) branch.  [w], [h] are what [termbox.Size()] returns. *)
Definition getTerminalSize (sd : SpotifyDisplay) (w h : Z) : TerminalSize :=
  let sx :=
    if String.eqb (horizontalAlign sd) "left" then margin sd
    else if String.eqb (horizontalAlign sd) "right" then
      GoInt.sub (GoInt.sub w (minWidth sd)) (margin sd)
    else GoInt.div (GoInt.sub w (minWidth sd)) 2 in
  let sy :=
    if String.eqb (verticalAlign sd) "top" then margin sd
    else if String.eqb (verticalAlign sd) "bottom" then
      GoInt.sub (GoInt.sub h (contentHeight sd)) (margin sd)
    else GoInt.div (GoInt.sub h (contentHeight sd)) 2 in
  {| width := w; height := h; startX := sx; startY := sy |}.

(** part_000, [getTerminalSize]: defaults (center / bottom) overwritten by
    [if]/[else if] chains. *)
Definition getTerminalSize_part000 (sd : SpotifyDisplay) (w h : Z)
  : TerminalSize :=
  let sx0 := GoInt.div (GoInt.sub w (minWidth sd)) 2 in
  let sy0 := GoInt.sub (GoInt.sub h (contentHeight sd)) (margin sd) in
  let sx :=
    if String.eqb (horizontalAlign sd) "left" then margin sd
    else if String.eqb (horizontalAlign sd) "right" then
      GoInt.sub (GoInt.sub w (minWidth sd)) (margin sd)
    else sx0 in
  let sy :=
    if String.eqb (verticalAlign sd) "top" then margin sd
    else if String.eqb (verticalAlign sd) "center" then
      GoInt.div (GoInt.sub h (contentHeight sd)) 2
    else sy0 in
  {| width := w; height := h; startX := sx; startY := sy |}.

(** ** float64 (IEEE-754 binary64) *)

Module F64.

Definition prec : Z := 53.
Definition emax : Z := 1024.

Definition float64 := spec_float.

(** Go's [float64(x)] for an integer [x]: round to nearest even. *)
Definition of_int (z : Z) : float64 := binary_normalize prec emax z 0 false.

Definition div : float64 -> float64 -> float64 := SFdiv prec emax.
Definition mul : float64 -> float64 -> float64 := SFmul prec emax.

(** Truncation toward zero of a finite float. *)
Definition trunc_finite (s : bool) (m : positive) (e : Z) : Z :=
  let a := if 0 <=? e then Zpos m * 2 ^ e else Zpos m / 2 ^ (- e) in
  if s then - a else a.

(** Go's [int(f)] on the program's amd64 target ([CVTTSD2SI]): truncation
    toward zero when the result fits in 64 bits; NaN, infinities and
    out-of-range values give the "integer indefinite" [-2^63] (the Go
    specification leaves this case implementation-dependent: arm64
    saturates).  No theorem of this file depends on that value: every
    conversion it reasons about is of a finite, in-range quotient. *)
Definition to_int (f : float64) : Z :=
  match f with
  | S754_zero _ => 0
  | S754_finite s m e =>
      let t := trunc_finite s m e in
      if (- GoInt.two63 <=? t) && (t <? GoInt.two63) then t else - GoInt.two63
  | _ => - GoInt.two63
  end.

End F64.

(** ** Go formatting: [fmt.Sprintf("%02d", n)] *)

Fixpoint uint_to_string (d : Decimal.uint) : string :=
  match d with
  | Decimal.Nil => ""
  | Decimal.D0 d => String "0" (uint_to_string d)
  | Decimal.D1 d => String "1" (uint_to_string d)
  | Decimal.D2 d => String "2" (uint_to_string d)
  | Decimal.D3 d => String "3" (uint_to_string d)
  | Decimal.D4 d => String "4" (uint_to_string d)
  | Decimal.D5 d => String "5" (uint_to_string d)
  | Decimal.D6 d => String "6" (uint_to_string d)
  | Decimal.D7 d => String "7" (uint_to_string d)
  | Decimal.D8 d => String "8" (uint_to_string d)
  | Decimal.D9 d => String "9" (uint_to_string d)
  end.

(** Decimal digits of [|z|], most significant first. *)
Definition absDigits (z : Z) : string := uint_to_string (N.to_uint (Z.abs_N z)).

Fixpoint zeros (n : nat) : string :=
  match n with
  | O => ""
  | S n => String "0" (zeros n)
  end.

(** Go's [fmt] integer verb with the [0] flag and width [w]: the sign counts
    toward the width and the zeros go between the sign and the digits. *)
Definition fmtIntZeroPad (w : nat) (z : Z) : string :=
  let ds := absDigits z in
  let w' := if z <? 0 then (w - 1)%nat else w in
  let padded := zeros (w' - String.length ds) ++ ds in
  if z <? 0 then "-" ++ padded else padded.

(** main.go, [formatTime]. *)
Definition formatTime (seconds : Z) : string :=
  let minutes := GoInt.div seconds 60 in
  let remainingSeconds := GoInt.rem seconds 60 in
  fmtIntZeroPad 2 minutes ++ ":" ++ fmtIntZeroPad 2 remainingSeconds.

(** ** Renderer: [drawProgressBar] *)

Record Metadata := {
  Title : string;
  Artist : string;
  Album : string;
  Length : Z;
  Position : Z;
  ArtURL : string
}.

(** Terminal and log effects of the program, in the order they happen.
    [moveCursor] and [fmt.Print] write escape sequences and text to the
    terminal; [log.Printf] writes to the log file. *)
Inductive Op :=
  | OpMove (x y : Z)
  | OpPrint (s : string)
  | OpClearScreen
  | OpLog (s : string)
  | OpDownload (url : string)
  | OpSaveCursor
  | OpRestoreCursor
  | OpRunChafa (imagePath : string).

(** Whether an effect writes to the terminal. *)
Definition isDraw (o : Op) : bool :=
  match o with
  | OpMove _ _ | OpPrint _ | OpClearScreen | OpSaveCursor | OpRestoreCursor
  | OpRunChafa _ => true
  | OpLog _ | OpDownload _ => false
  end.

Definition filledGlyph : string := "━".
Definition emptyGlyph : string := "─".

(** Go's [strings.Repeat] for the non-negative counts it receives here. *)
Fixpoint repeatStr (s : string) (n : nat) : string :=
  match n with
  | O => ""
  | S n => s ++ repeatStr s n
  end.

Definition progressWidth : Z := 40.

(** The fill count computed in main.go's [drawProgressBar] (lines 314-324). *)
Definition progressOf (metadata : Metadata) : Z :=
  let width := progressWidth in
  if 0 <? Length metadata then
    let p := F64.to_int (F64.mul (F64.div (F64.of_int (Position metadata))
                                          (F64.of_int (Length metadata)))
                                 (F64.of_int width)) in
    let p := if p <? 0 then 0 else p in
    if p >? width then width else p
  else 0.

Definition progressBar (progress : Z) : string :=
  repeatStr filledGlyph (Z.to_nat progress)
  ++ repeatStr emptyGlyph (Z.to_nat (progressWidth - progress)).

(** main.go, [drawProgressBar]. *)
Definition drawProgressBar (metadata : Metadata) (term : TerminalSize) : list Op :=
  let width := progressWidth in
  let progress := progressOf metadata in
  let bar := progressBar progress in
  let currentTime := formatTime (Position metadata) in
  let totalTime := formatTime (Length metadata) in
  let timeText := currentTime ++ "/" ++ totalTime in
  [ OpMove (GoInt.add (startX term) 20) (GoInt.add (startY term) 4);
    OpPrint (repeatStr " " 60);
    OpMove (GoInt.add (startX term) 20) (GoInt.add (startY term) 5);
    OpPrint (repeatStr " " 60);
    OpMove (GoInt.add (startX term) 20) (GoInt.add (startY term) 4);
    OpPrint bar;
    OpMove (GoInt.add (GoInt.add (startX term) 20)
                      (GoInt.div (width - Z.of_nat (String.length timeText)) 2))
           (GoInt.add (startY term) 5);
    OpPrint timeText ].

(** ** Go string helpers *)

Module GoStr.

(** [strings.HasPrefix(s, p)]. *)
Definition hasPrefix (s p : string) : bool := String.prefix p s.

(** [strings.TrimPrefix(s, p)]. *)
Definition trimPrefix (s p : string) : string :=
  if hasPrefix s p
  then String.substring (String.length p) (String.length s - String.length p) s
  else s.

Fixpoint trimLeftByte (c : ascii) (s : string) : string :=
  match s with
  | EmptyString => EmptyString
  | String a s' => if Ascii.eqb a c then trimLeftByte c s' else s
  end.

Definition rev_str (s : string) : string :=
  string_of_list_ascii (List.rev (list_ascii_of_string s)).

Definition trimRightByte (c : ascii) (s : string) : string :=
  rev_str (trimLeftByte c (rev_str s)).

(** [strings.Trim(s, cutset)] with a one-byte cutset: drop every leading
    and every trailing occurrence of the byte. *)
Definition trim1 (s : string) (c : ascii) : string :=
  trimRightByte c (trimLeftByte c s).

End GoStr.

Definition quoteChar : ascii := Ascii false true false false false true false false.

(** ** Metadata source adapter: [getMetadata] *)

(** The D-Bus values the player interface can deliver; [VInvalid] is the
    zero [dbus.Variant] that indexing a Go map with a missing key yields. *)
Inductive dbusValue :=
  | VInvalid
  | VInt64 (v : Z)
  | VUint64 (v : Z)
  | VString (s : string)
  | VStringArray (l : list string)
  | VDict (m : list (string * dbusValue))
  | VOther.

(** [m[k]] on a [map[string]dbus.Variant]. *)
Fixpoint lookupV (m : list (string * dbusValue)) (k : string) : dbusValue :=
  match m with
  | [] => VInvalid
  | (k', v) :: m' => if String.eqb k k' then v else lookupV m' k
  end.

(** [v, ok := m[k]]. *)
Fixpoint lookupOpt (m : list (string * dbusValue)) (k : string)
  : option dbusValue :=
  match m with
  | [] => None
  | (k', v) :: m' => if String.eqb k k' then Some v else lookupOpt m' k
  end.

(** [Ok]: the value is returned with a [nil] error; [Err]: a non-[nil]
    error is returned; [Panic]: a Go run-time panic, which nothing in the
    program recovers. *)
Inductive result (A : Type) :=
  | Ok (a : A)
  | Err (msg : string)
  | Panic (msg : string).
Arguments Ok {A} a.
Arguments Err {A} msg.
Arguments Panic {A} msg.

(** The two property reads of one call ([None]: [GetProperty] failed). *)
Record PlayerProps := {
  propMetadata : option dbusValue;
  propPosition : option dbusValue
}.

(** The type switch of main.go lines 127-134 and 137-144: an [int64] is
    taken as is, a [uint64] is converted with [int64(v)]. *)
Definition int64Field (v : dbusValue) : option Z :=
  match v with
  | VInt64 z => Some z
  | VUint64 z => Some (GoInt.wrap64 z)
  | _ => None
  end.

(** main.go lines 159-174: the art-URL normalisation, applied to the
    variant's string form [rawURL]. *)
Definition normalizeArtURL (rawURL : string) : string :=
  let rawURL := GoStr.trim1 rawURL quoteChar in
  if GoStr.hasPrefix rawURL "https://i.scdn.co/image/" then rawURL
  else if GoStr.hasPrefix rawURL "file://" then
    GoStr.trimPrefix rawURL "file://"
  else "".

(** [m[k]] of a missing key is the zero [dbus.Variant]; godbus's
    [Variant.String()] on it panics ([format] reads [sig.str[0]] of its empty
    signature).  A dictionary decoded from the bus never stores the zero
    Variant, so [VInvalid] only arises from a missing key. *)
Definition isZeroVariant (v : dbusValue) : bool :=
  match v with VInvalid => true | _ => false end.

Definition indexPanic : string := "runtime error: index out of range [0] with length 0".

Section Adapter.

(** godbus's [Variant.String()] on a valid variant, the external formatter
    whose output the program trims; for a string variant it is the quoted
    string.  The zero Variant is handled by [getMetadata] itself. *)
Variable variantString : dbusValue -> string.

(** main.go lines 157-175: absent field gives the empty reference. *)
Definition artURLOf (m : list (string * dbusValue)) : string :=
  match lookupOpt m "mpris:artUrl" with
  | Some artURLVar => normalizeArtURL (variantString artURLVar)
  | None => ""
  end.

(** main.go, [getMetadata] (the [log.Printf] lines go to the log file and
    are left out).  The composite literal of lines 177-184 calls
    [metadata["xesam:title"].String()] and [metadata["xesam:album"].String()]:
    a missing title or album entry panics there. *)
Definition getMetadata (props : PlayerProps) : result Metadata :=
  match propMetadata props with
  | None => Err "GetProperty Metadata failed"
  | Some variant =>
    match variant with
    | VDict metadata =>
      match propPosition props with
      | None => Err "GetProperty Position failed"
      | Some position =>
        match int64Field (lookupV metadata "mpris:length") with
        | None => Err "unexpected length type"
        | Some length =>
          match int64Field position with
          | None => Err "unexpected position type"
          | Some pos =>
            match lookupV metadata "xesam:artist" with
            | VStringArray artists =>
              let artistName :=
                match artists with
                | a :: _ => a
                | [] => "Unknown Artist"
                end in
              let title := lookupV metadata "xesam:title" in
              let album := lookupV metadata "xesam:album" in
              if isZeroVariant title || isZeroVariant album then Panic indexPanic
              else
              Ok {| Title := variantString title;
                    Artist := artistName;
                    Album := variantString album;
                    Length := GoInt.div length 1000000;
                    Position := GoInt.div pos 1000000;
                    ArtURL := artURLOf metadata |}
            | _ => Err "invalid artist format"
            end
          end
        end
      end
    | _ => Err "invalid metadata format"
    end
  end.

End Adapter.

(** ** Artwork pipeline: [downloadArtwork] and [displayImage] *)

(** Outcomes of the file-system, network and subprocess calls of one
    artwork refresh, as the outside world decides them. *)
Record ArtIO := {
  ioOpenLocal : bool;     (** [os.Open(artURL)] succeeds *)
  ioCreate : bool;        (** [os.Create(imagePath)] succeeds *)
  ioCopy : bool;          (** [io.Copy] succeeds *)
  ioNewRequest : bool;    (** [http.NewRequest] succeeds *)
  ioDo : bool;            (** [client.Do(req)] succeeds *)
  ioStatus : Z;           (** the response's [StatusCode] *)
  ioStatSize : option Z;  (** [os.Stat(imagePath)]: [None] on error *)
  ioChafa : bool;         (** [exec.LookPath("chafa")] succeeds *)
  ioChafaRun : bool       (** [cmd.Run()] exits with status 0 *)
}.

Definition imagePathOf (cache : string) : string :=
  cache ++ "/current_artwork.png".

(** main.go, [downloadArtwork].  [OpDownload url] marks the start of the
    fetch itself (after the empty-URL check). *)
Definition downloadArtwork (cache : string) (io : ArtIO) (artURL : string)
  : result string * list Op :=
  if String.eqb artURL "" then (Err "no artwork URL provided", [])
  else
    let imagePath := imagePathOf cache in
    let ops := [OpLog ("Downloading artwork from: " ++ artURL); OpDownload artURL] in
    if GoStr.hasPrefix artURL "/" then
      if negb (ioOpenLocal io) then (Err "failed to open local artwork", ops)
      else if negb (ioCreate io) then (Err "failed to create artwork file", ops)
      else if negb (ioCopy io) then (Err "failed to copy artwork", ops)
      else (Ok imagePath, ops)
    else
      if negb (ioNewRequest io) then (Err "failed to create request", ops)
      else if negb (ioDo io) then (Err "failed to download artwork", ops)
      else if negb (ioStatus io =? 200) then (Err "failed to download artwork: HTTP", ops)
      else if negb (ioCreate io) then (Err "failed to create artwork file", ops)
      else if negb (ioCopy io) then (Err "failed to save artwork", ops)
      else (Ok imagePath, ops ++ [OpLog "Successfully downloaded artwork"])%list.

(** main.go, [displayImage]. *)
Definition displayImage (io : ArtIO) (imagePath : string) (sx sy : Z)
  : result unit * list Op :=
  if String.eqb imagePath "" then (Err "no image path provided", [])
  else match ioStatSize io with
  | None => (Err "artwork file error", [])
  | Some 0 => (Err "artwork file is empty", [])
  | Some _ =>
    if negb (ioChafa io) then (Err "chafa is not installed", [])
    else
      let ops := [OpSaveCursor; OpMove sx sy; OpRunChafa imagePath] in
      if ioChafaRun io then (Ok tt, ops ++ [OpRestoreCursor])%list
      else (Err "chafa exit status", ops ++ [OpLog "Chafa error"; OpRestoreCursor])%list
  end.

(** ** Keyboard handling *)

Inductive EventType := EventKey | EventResize | EventMouse | EventError
  | EventInterrupt | EventRaw | EventNone.

Inductive Key := KeyArrowUp | KeyArrowDown | KeyArrowLeft | KeyArrowRight
  | KeyOther (k : Z).

(** A [termbox.Event]; [evCh] is the rune. *)
Record TermEvent := {
  evType : EventType;
  evKey : Key;
  evCh : Z
}.

Definition rune_q : Z := 113.
Definition rune_c : Z := 99.

Definition setAlign (sd : SpotifyDisplay) (h v : string) : SpotifyDisplay :=
  {| cacheDir := cacheDir sd; minWidth := minWidth sd;
     contentHeight := contentHeight sd; margin := margin sd;
     horizontalAlign := h; verticalAlign := v;
     currentArtURL := currentArtURL sd |}.

Definition setArtURL (sd : SpotifyDisplay) (u : string) : SpotifyDisplay :=
  {| cacheDir := cacheDir sd; minWidth := minWidth sd;
     contentHeight := contentHeight sd; margin := margin sd;
     horizontalAlign := horizontalAlign sd; verticalAlign := verticalAlign sd;
     currentArtURL := u |}.

(** main.go, [handleKeyboard]: returns [redraw] and the updated display. *)
Definition handleKeyboard (sd : SpotifyDisplay) (event : TermEvent)
  : bool * SpotifyDisplay :=
  let '(redraw, sd) :=
    match evKey event with
    | KeyArrowUp => (true, setAlign sd (horizontalAlign sd) "top")
    | KeyArrowDown => (true, setAlign sd (horizontalAlign sd) "bottom")
    | KeyArrowLeft => (true, setAlign sd "left" (verticalAlign sd))
    | KeyArrowRight => (true, setAlign sd "right" (verticalAlign sd))
    | KeyOther _ => (false, sd)
    end in
  if evCh event =? rune_c then (true, setAlign sd "center" "center")
  else (redraw, sd).

(** ** Event loop: one iteration of the [select] in main.go's [Run] *)

(** What the outside world supplies on a timer tick. *)
Record TickEnv := {
  termW : Z;
  termH : Z;
  props : PlayerProps;
  artIO : ArtIO
}.

Inductive Event :=
  | EvInput (e : TermEvent)
  | EvTick (env : TickEnv)
  | EvSignal.

(** [Running]: the loop goes on; [Terminating]: [Run] returned [nil];
    [Crashed]: a panic unwound [Run] (its deferred calls run and the process
    exits). *)
Inductive LoopState := Running | Terminating | Crashed.

Section Loop.

Variable variantString : dbusValue -> string.

(** The artwork branch of a tick (main.go lines 450-461); [downloadArtwork]
    and [displayImage] never panic, so their [Panic] case is unreachable. *)
Definition artworkStep (sd : SpotifyDisplay) (io : ArtIO) (term : TerminalSize)
  (metadata : Metadata) : SpotifyDisplay * list Op :=
  if negb (String.eqb (ArtURL metadata) (currentArtURL sd))
     && negb (String.eqb (ArtURL metadata) "") then
    let sd := setArtURL sd (ArtURL metadata) in
    let '(r, ops) := downloadArtwork (cacheDir sd) io (ArtURL metadata) in
    match r with
    | Err e | Panic e => (sd, app ops [OpLog ("Artwork error: " ++ e)])
    | Ok imagePath =>
      if negb (String.eqb imagePath "") then
        let '(r2, ops2) := displayImage io imagePath (startX term) (startY term) in
        match r2 with
        | Err e | Panic e => (sd, app ops (app ops2 [OpLog ("Display error: " ++ e)]))
        | Ok _ => (sd, app ops ops2)
        end
      else (sd, ops)
    end
  else (sd, []).

(** The timer branch (main.go lines 431-461). *)
Definition tickStep (sd : SpotifyDisplay) (env : TickEnv)
  : LoopState * SpotifyDisplay * list Op :=
  let term := getTerminalSize sd (termW env) (termH env) in
  match getMetadata variantString (props env) with
  | Err e => (Running, sd, [OpLog ("Error getting metadata: " ++ e)])
  | Panic _ => (Crashed, sd, [])
  | Ok metadata =>
    let x := GoInt.add (startX term) 20 in
    let info :=
      (        [ OpMove x (startY term); OpPrint "♫ Now Playing";
        OpMove x (GoInt.add (startY term) 1); OpPrint (Title metadata);
        OpMove x (GoInt.add (startY term) 2); OpPrint ("by " ++ Artist metadata) ]%list
      ++ drawProgressBar metadata term)%list in
    let '(sd', art) := artworkStep sd (artIO env) term metadata in
    (Running, sd', app info art)
  end.

(** One iteration of the [for { select { ... } }] loop. *)
Definition step (sd : SpotifyDisplay) (ev : Event)
  : LoopState * SpotifyDisplay * list Op :=
  match ev with
  | EvInput event =>
    match evType event with
    | EventKey =>
      if evCh event =? rune_q then (Terminating, sd, [])
      else
        let '(redraw, sd') := handleKeyboard sd event in
        if redraw then (Running, setArtURL sd' "", [OpClearScreen])
        else (Running, sd', [])
    | _ => (Running, sd, [])
    end
  | EvTick env => tickStep sd env
  | EvSignal => (Terminating, sd, [])
  end.

(** The loop over a sequence of ready events, stopping at [return nil]. *)
Fixpoint run (sd : SpotifyDisplay) (evs : list Event)
  : LoopState * SpotifyDisplay * list Op :=
  match evs with
  | [] => (Running, sd, [])
  | ev :: evs' =>
    let '(st, sd', ops) := step sd ev in
    match st with
    | Terminating => (Terminating, sd', ops)
    | Crashed => (Crashed, sd', ops)
    | Running =>
      let '(st'', sd'', ops') := run sd' evs' in
      (st'', sd'', app ops ops')
    end
  end.

End Loop.

(** ** Predicates, projections and sample inputs used by the lemmas *)

(** The fill count the spec's words describe: the exact quotient rounded to
    the nearest integer (halves up), clamped to [0, 40]. *)
Definition roundedFillSpec (pos len : Z) : Z :=
  Z.max 0 (Z.min progressWidth ((2 * progressWidth * pos + len) / (2 * len))).

(** The clamp of main.go lines 318-323. *)
Definition clampFill (p : Z) : Z :=
  let p := if p <? 0 then 0 else p in
  if p >? progressWidth then progressWidth else p.

Definition isOk {A} (r : result A) : bool :=
  match r with Ok _ => true | _ => false end.

Definition cdnPrefix : string := "https://i.scdn.co/image/".
Definition filePrefix : string := "file://".


Definition isDownload (o : Op) : bool :=
  match o with OpDownload _ => true | _ => false end.

(** Number of artwork fetches started by a sequence of effects. *)
Definition downloads (ops : list Op) : nat := List.length (filter isDownload ops).

Definition loopOf (x : LoopState * SpotifyDisplay * list Op) : LoopState :=
  let '(st, _, _) := x in st.
Definition stateOf (x : LoopState * SpotifyDisplay * list Op) : SpotifyDisplay :=
  let '(_, sd, _) := x in sd.
Definition opsOf (x : LoopState * SpotifyDisplay * list Op) : list Op :=
  let '(_, _, ops) := x in ops.

(** The artwork branch's guard (main.go line 451). *)
Definition artDue (sd : SpotifyDisplay) (md : Metadata) : bool :=
  negb (String.eqb (ArtURL md) (currentArtURL sd))
  && negb (String.eqb (ArtURL md) "").

Definition hAlignOK (s : string) : bool :=
  String.eqb s "left" || String.eqb s "center" || String.eqb s "right".
Definition vAlignOK (s : string) : bool :=
  String.eqb s "top" || String.eqb s "center" || String.eqb s "bottom".
Definition alignOK (sd : SpotifyDisplay) : bool :=
  hAlignOK (horizontalAlign sd) && vAlignOK (verticalAlign sd).

(** A terminal dimension or configuration value far from the [int] limits. *)
Definition smallInt (z : Z) : Prop := - 2 ^ 61 <= z <= 2 ^ 61.

(** godbus's [Variant.String()] on a string variant whose text needs no
    escaping ([strconv.Quote]).  It is used only to run samples, whose
    title and album entries are such strings; the theorems take
    [Variant.String()] as the parameter [vs] instead.  [getMetadata] never
    applies it to the zero Variant of a missing key: it panics first.  The
    last branch is a placeholder for variants no sample passes it. *)
Definition quotedVariantString (v : dbusValue) : string :=
  match v with
  | VString s => String quoteChar (s ++ String quoteChar EmptyString)
  | _ => ""
  end.

Definition sampleMetadataDict (lenUs : dbusValue) (art : string) : dbusValue :=
  VDict [("mpris:length", lenUs); ("xesam:artist", VStringArray ["Artist"]);
         ("xesam:title", VString "Song"); ("xesam:album", VString "Album");
         ("mpris:artUrl", VString art)].

Definition sampleProps (lenUs posUs : dbusValue) (art : string) : PlayerProps :=
  {| propMetadata := Some (sampleMetadataDict lenUs art);
     propPosition := Some posUs |}.

Definition okIO : ArtIO :=
  {| ioOpenLocal := true; ioCreate := true; ioCopy := true;
     ioNewRequest := true; ioDo := true; ioStatus := 200;
     ioStatSize := Some 1000; ioChafa := true; ioChafaRun := true |}.

(** The network is down: the HTTP request fails. *)
Definition offlineIO : ArtIO :=
  {| ioOpenLocal := true; ioCreate := true; ioCopy := true;
     ioNewRequest := true; ioDo := false; ioStatus := 0;
     ioStatSize := Some 1000; ioChafa := true; ioChafaRun := true |}.

Definition cdnArt : string := "https://i.scdn.co/image/ab67616d0000b273".

Definition sampleTick (io : ArtIO) (art : string) : TickEnv :=
  {| termW := 120; termH := 40;
     props := sampleProps (VInt64 200000000) (VInt64 30000000) art;
     artIO := io |}.

(** A tick on which the player cannot be queried. *)
Definition brokenTick : TickEnv :=
  {| termW := 120; termH := 40;
     props := {| propMetadata := None; propPosition := None |};
     artIO := okIO |}.

(** A local art reference as the variant's [String()] renders it, with
    its surrounding quotes. *)
Definition quotedFileRef : string :=
  String quoteChar ("file:///home/u/cover.jpg" ++ String quoteChar EmptyString).

(** What [getMetadata] returns for [sampleTick _ art] (with [art] a
    recognised reference). *)
Definition sampleRecord (art : string) : Metadata :=
  {| Title := String quoteChar ("Song" ++ String quoteChar EmptyString); Artist := "Artist";
     Album := String quoteChar ("Album" ++ String quoteChar EmptyString); Length := 200;
     Position := 30; ArtURL := art |}.


(** A tick whose dictionary has no [xesam:album] entry. *)
Definition noAlbumTick : TickEnv :=
  {| termW := 120; termH := 40;
     props := {| propMetadata :=
                   Some (VDict [("mpris:length", VInt64 200000000);
                                ("xesam:artist", VStringArray ["Artist"]);
                                ("xesam:title", VString "Song")]);
                 propPosition := Some (VInt64 30000000) |};
     artIO := okIO |}.

Definition mkMeta (pos len : Z) : Metadata :=
  {| Title := "Song"; Artist := "Artist"; Album := ""; Length := len;
     Position := pos; ArtURL := "" |}.

Definition digitChar (d : Z) : ascii := ascii_of_nat (48 + Z.to_nat d).

(** Two-digit zero-padded decimal, as the spec describes [mm] and [ss]. *)
Definition twoDigits (n : Z) : string :=
  String (digitChar (n / 10)) (String (digitChar (n mod 10)) "").

(** ** part_000: keyboard and progress bar *)

(** part_000, [handleKeyboard]: the rune ['c'] is only looked at in the
    [default] branch, so an arrow key returns at once. *)
Definition handleKeyboard_part000 (sd : SpotifyDisplay) (event : TermEvent)
  : bool * SpotifyDisplay :=
  match evKey event with
  | KeyArrowUp => (true, setAlign sd (horizontalAlign sd) "top")
  | KeyArrowDown => (true, setAlign sd (horizontalAlign sd) "bottom")
  | KeyArrowLeft => (true, setAlign sd "left" (verticalAlign sd))
  | KeyArrowRight => (true, setAlign sd "right" (verticalAlign sd))
  | KeyOther _ =>
      if evCh event =? rune_c then (true, setAlign sd "center" "center")
      else (false, sd)
  end.

(** part_000, [drawProgressBar] lines 190-196: no [Length > 0] guard, and
    one [if]/[else if] clamp. *)
Definition progressOf_part000 (metadata : Metadata) : Z :=
  let width := progressWidth in
  let progress := F64.to_int (F64.mul (F64.div (F64.of_int (Position metadata))
                                                (F64.of_int (Length metadata)))
                                       (F64.of_int width)) in
  if progress <? 0 then 0
  else if progress >? width then width
  else progress.

(** ** Terminal output *)

(** Go's [%d] verb. *)
Definition fmtInt (z : Z) : string := fmtIntZeroPad 0 z.

(** The escape byte [\033]. *)
Definition escChar : ascii := Ascii true true false true true false false false.

(** [fmt.Sprintf("\033[%d;%dH", row, col)]: move the cursor to the 1-based
    [row] and [col]. *)
Definition cursorPosSeq (row col : Z) : string :=
  String escChar ("[" ++ fmtInt row ++ ";" ++ fmtInt col ++ "H").

(** main.go, [moveCursor(x, y)]: [fmt.Printf("\033[%d;%dH", y+1, x+1)]. *)
Definition moveCursorSeq (x y : Z) : string :=
  cursorPosSeq (GoInt.add y 1) (GoInt.add x 1).

(** main.go, [clearScreen]. *)
Definition clearScreenSeq : string :=
  String escChar ("[2J" ++ String escChar "[H").

(** [fmt.Print("\0337")] and [fmt.Print("\0338")]. *)
Definition saveCursorSeq : string := String escChar "7".
Definition restoreCursorSeq : string := String escChar "8".

(** The bytes an effect writes to the terminal; [chafaOut] is what the
    external [chafa] process prints for an image; log lines and the fetch go
    elsewhere. *)
Definition renderOp (chafaOut : string -> string) (o : Op) : string :=
  match o with
  | OpMove x y => moveCursorSeq x y
  | OpPrint s => s
  | OpClearScreen => clearScreenSeq
  | OpSaveCursor => saveCursorSeq
  | OpRestoreCursor => restoreCursorSeq
  | OpRunChafa p => chafaOut p
  | OpLog _ | OpDownload _ => ""
  end.

Definition renderOps (chafaOut : string -> string) (ops : list Op) : string :=
  fold_right (fun o acc => renderOp chafaOut o ++ acc) "" ops.

(** part_000, [drawProgressBar]: each line is one
    [fmt.Printf("\033[%d;%dH%s", row, col, text)]. *)
Definition drawProgressBar_part000 (metadata : Metadata) (term : TerminalSize)
  : list Op :=
  let width := progressWidth in
  let progress := progressOf_part000 metadata in
  let bar := progressBar progress in
  let timeText :=
    fmtIntZeroPad 2 (GoInt.div (Position metadata) 60) ++ ":"
    ++ fmtIntZeroPad 2 (GoInt.rem (Position metadata) 60) ++ "/"
    ++ fmtIntZeroPad 2 (GoInt.div (Length metadata) 60) ++ ":"
    ++ fmtIntZeroPad 2 (GoInt.rem (Length metadata) 60) in
  [ OpPrint (cursorPosSeq (GoInt.add (startY term) 5) (GoInt.add (startX term) 20)
             ++ repeatStr " " 60);
    OpPrint (cursorPosSeq (GoInt.add (startY term) 6) (GoInt.add (startX term) 20)
             ++ repeatStr " " 60);
    OpPrint (cursorPosSeq (GoInt.add (startY term) 5) (GoInt.add (startX term) 20)
             ++ bar);
    OpPrint (cursorPosSeq (GoInt.add (startY term) 6)
               (GoInt.add (GoInt.add (startX term) 20)
                          (GoInt.div (width - Z.of_nat (String.length timeText)) 2))
             ++ timeText) ].

(** ** Observations used by the further properties *)

Definition isArrow (k : Key) : bool :=
  match k with KeyOther _ => false | _ => true end.

(** The events on which [Run] returns: ['q'] and SIGINT/SIGTERM. *)
Definition isQuit (ev : Event) : bool :=
  match ev with
  | EvSignal => true
  | EvInput e => match evType e with EventKey => evCh e =? rune_q | _ => false end
  | EvTick _ => false
  end.

Definition isPanic {A} (r : result A) : bool :=
  match r with Panic _ => true | _ => false end.

(** A tick whose metadata read panics: the other way [Run] ends. *)
Definition tickPanics (vs : dbusValue -> string) (ev : Event) : bool :=
  match ev with EvTick env => isPanic (getMetadata vs (props env)) | _ => false end.

Definition isInput (ev : Event) : bool :=
  match ev with EvInput _ => true | _ => false end.

(** The configuration fields of a display. *)
Definition sameConfig (sd sd' : SpotifyDisplay) : Prop :=
  cacheDir sd' = cacheDir sd /\ minWidth sd' = minWidth sd /\
  contentHeight sd' = contentHeight sd /\ margin sd' = margin sd.

(** [os.Stat] succeeded on a non-empty file. *)
Definition statNonEmpty (io : ArtIO) : bool :=
  match ioStatSize io with Some n => negb (n =? 0) | None => false end.

(** The bytes of a progress area drawn from row [row] and column [col]: two
    rows blanked with 60 spaces, the bar on the first row and the time text
    centred on the second. *)
Definition progressRows (row col : Z) (bar timeText : string) : string :=
  cursorPosSeq row col ++ repeatStr " " 60
  ++ cursorPosSeq (GoInt.add row 1) col ++ repeatStr " " 60
  ++ cursorPosSeq row col ++ bar
  ++ cursorPosSeq (GoInt.add row 1)
       (GoInt.add col (GoInt.div (progressWidth - Z.of_nat (String.length timeText)) 2))
  ++ timeText.

(** A decoder for the [mm:ss] text: decimal digits, split at the first
    colon. *)
Definition digitCons (c : ascii) : option (Decimal.uint -> Decimal.uint) :=
  if Ascii.eqb c "0" then Some Decimal.D0
  else if Ascii.eqb c "1" then Some Decimal.D1
  else if Ascii.eqb c "2" then Some Decimal.D2
  else if Ascii.eqb c "3" then Some Decimal.D3
  else if Ascii.eqb c "4" then Some Decimal.D4
  else if Ascii.eqb c "5" then Some Decimal.D5
  else if Ascii.eqb c "6" then Some Decimal.D6
  else if Ascii.eqb c "7" then Some Decimal.D7
  else if Ascii.eqb c "8" then Some Decimal.D8
  else if Ascii.eqb c "9" then Some Decimal.D9
  else None.

Fixpoint toUint (s : string) : option Decimal.uint :=
  match s with
  | EmptyString => Some Decimal.Nil
  | String c s' =>
    match digitCons c, toUint s' with
    | Some f, Some d => Some (f d)
    | _, _ => None
    end
  end.

Fixpoint splitColon (s : string) : option (string * string) :=
  match s with
  | EmptyString => None
  | String c s' =>
    if Ascii.eqb c ":" then Some (EmptyString, s')
    else match splitColon s' with
         | Some (a, b) => Some (String c a, b)
         | None => None
         end
  end.

Definition parseTime (s : string) : option Z :=
  match splitColon s with
  | Some (a, b) =>
    match toUint a, toUint b with
    | Some x, Some y => Some (60 * Z.of_N (N.of_uint x) + Z.of_N (N.of_uint y))
    | _, _ => None
    end
  | None => None
  end.

(** * Lemmas *)

(** ** binary64 facts used by the progress bar *)

Module F64Facts.
Import F64.

Lemma digits2_pos_size (p : positive) : digits2_pos p = Pos.size p.
Proof. induction p; simpl; congruence. Qed.

Lemma digits2_pos_shift (p k : positive) :
  Zpos (digits2_pos (Pos.iter xO p k)) = Zpos (digits2_pos p) + Zpos k.
Proof.
  induction k as [|k IH] using Pos.peano_ind.
  - simpl. rewrite Pos.add_1_r. reflexivity.
  - rewrite Pos.iter_succ. simpl digits2_pos.
    rewrite Pos2Z.inj_succ, IH. lia.
Qed.

Lemma size_le_53 (p : positive) : Zpos p < 2 ^ 53 -> Zpos (Pos.size p) <= 53.
Proof.
  intros Hp. pose proof (Pos.size_le p) as Hs0.
  assert (Hs : Zpos (2 ^ Pos.size p) <= Zpos p~0) by exact Hs0.
  rewrite Pos2Z.inj_pow, Pos2Z.inj_xO in Hs.
  destruct (Z.le_gt_cases (Zpos (Pos.size p)) 53) as [|Hgt]; [assumption|].
  exfalso. assert (2 ^ 54 <= 2 ^ Zpos (Pos.size p)).
  { apply Z.pow_le_mono_r; lia. }
  lia.
Qed.

(** Rounding an already representable 53-bit mantissa is exact. *)
Lemma round_aux_exact (m : positive) (e : Z) (s : bool) :
  Zpos (digits2_pos m) = 53 -> -1074 <= e <= 971 ->
  binary_round_aux prec emax s (Zpos m) e loc_Exact = S754_finite s m e.
Proof.
  intros Hd He. unfold binary_round_aux, shr_fexp.
  change (Zdigits2 (Zpos m)) with (Zpos (digits2_pos m)). rewrite Hd.
  assert (Hf : fexp prec emax (53 + e) - e = 0).
  { unfold fexp, emin, prec, emax. lia. }
  rewrite Hf.
  cbn [shr shr_m loc_of_shr_record round_nearest_even shr_record_of_loc].
  change (Zdigits2 (Zpos m)) with (Zpos (digits2_pos m)). rewrite Hd, Hf.
  cbn [shr shr_m].
  replace (e <=? emax - prec) with true
    by (symmetry; apply Z.leb_le; unfold emax, prec; lia).
  reflexivity.
Qed.

(** [float64(z)] is exact and finite for [0 < z < 2^53]. *)
Lemma of_int_finite (z : Z) : 0 < z < 2 ^ 53 ->
  exists m e, of_int z = S754_finite false m e.
Proof.
  intros Hz. destruct z as [|p|p]; try lia.
  unfold of_int, binary_normalize, binary_round, shl_align.
  pose proof (size_le_53 p (proj2 Hz)) as Hs.
  rewrite <- digits2_pos_size in Hs.
  remember (Zpos (digits2_pos p)) as d eqn:Hd.
  assert (Hfe : fexp prec emax (d + 0) = d - 53).
  { unfold fexp, emin, prec, emax. lia. }
  rewrite Hfe.
  destruct (d - 53 - 0) as [|k|k] eqn:Hk.
  - exists p, 0. apply round_aux_exact; lia.
  - lia.
  - exists (Pos.iter xO p k), (d - 53). apply round_aux_exact.
    + rewrite digits2_pos_shift. lia.
    + lia.
Qed.

Lemma shiftl_53 (m : positive) : Z.shiftl (Zpos m) 53 = Zpos m * 2 ^ 53.
Proof. rewrite Z.shiftl_mul_pow2; lia. Qed.

(** [x / x = 1] for every finite float. *)
Lemma div_self (s : bool) (m : positive) (e : Z) :
  div (S754_finite s m e) (S754_finite s m e) = S754_finite false (2 ^ 52) (-52).
Proof.
  unfold div, SFdiv, SFdiv_core_binary.
  replace (Zdigits2 (Zpos m) + e - (Zdigits2 (Zpos m) + e)) with 0 by lia.
  replace (e - e) with 0 by lia.
  change (Z.min (fexp prec emax 0) 0) with (-53).
  change (0 - -53) with 53.
  rewrite shiftl_53.
  assert (Hq : Z.div_eucl (Zpos m * 2 ^ 53) (Zpos m) = (2 ^ 53, 0)).
  { assert (E : Z.div_eucl (Zpos m * 2 ^ 53) (Zpos m)
                = (Zpos m * 2 ^ 53 / Zpos m, Zpos m * 2 ^ 53 mod Zpos m)).
    { unfold Z.div, Z.modulo. destruct (Z.div_eucl _ _); reflexivity. }
    rewrite E. f_equal.
    - rewrite Z.mul_comm. apply Z.div_mul. lia.
    - rewrite Z.mul_comm. apply Z.mod_mul. lia. }
  rewrite Hq, xorb_nilpotent.
  unfold new_location, new_location_even, new_location_odd.
  replace (0 =? 0) with true by reflexivity.
  destruct (Z.even (Zpos m)); reflexivity.
Qed.

End F64Facts.

(** ** Progress bar facts *)

Section ProgressFacts.
Import F64.

Lemma progressOf_range (md : Metadata) : 0 <= progressOf md <= progressWidth.
Proof.
  unfold progressOf, progressWidth.
  destruct (0 <? Length md); [|lia].
  set (p := to_int _).
  destruct (p <? 0) eqn:E1; destruct (_ >? _) eqn:E2; lia.
Qed.

Lemma progressOf_full (md : Metadata) :
  0 < Length md < 2 ^ 53 -> Position md = Length md -> progressOf md = 40.
Proof.
  intros Hl Hp. unfold progressOf.
  replace (0 <? Length md) with true by (symmetry; apply Z.ltb_lt; lia).
  rewrite Hp. destruct (F64Facts.of_int_finite (Length md) Hl) as (m & e & He).
  rewrite He, F64Facts.div_self. vm_compute. reflexivity.
Qed.

Lemma progressOf_start (md : Metadata) :
  0 < Length md < 2 ^ 53 -> Position md = 0 -> progressOf md = 0.
Proof.
  intros Hl Hp. unfold progressOf.
  replace (0 <? Length md) with true by (symmetry; apply Z.ltb_lt; lia).
  rewrite Hp. destruct (F64Facts.of_int_finite (Length md) Hl) as (m & e & He).
  rewrite He. vm_compute. reflexivity.
Qed.

End ProgressFacts.

(** ** Adapter facts *)

Lemma hasPrefix_trimPrefix (s p : string) :
  GoStr.hasPrefix s p = true -> p ++ GoStr.trimPrefix s p = s.
Proof.
  unfold GoStr.trimPrefix. intros H. rewrite H. revert s H.
  induction p as [|c p IH]; intros s H.
  - simpl. rewrite Nat.sub_0_r. clear H. induction s; simpl; congruence.
  - destruct s as [|c' s]; [discriminate|].
    unfold GoStr.hasPrefix in *. simpl in H |- *.
    destruct (Ascii.ascii_dec c c') as [->|]; [|discriminate].
    f_equal. apply IH. exact H.
Qed.







(** ** Event loop facts *)

Lemma downloads_app (a b : list Op) : downloads (a ++ b) = (downloads a + downloads b)%nat.
Proof. unfold downloads. rewrite filter_app, length_app. reflexivity. Qed.

Lemma downloadArtwork_downloads (c : string) (io : ArtIO) (u : string) :
  u <> "" -> downloads (snd (downloadArtwork c io u)) = 1%nat.
Proof.
  intros Hu. unfold downloadArtwork.
  destruct (String.eqb u "") eqn:E; [apply String.eqb_eq in E; contradiction|].
  destruct (GoStr.hasPrefix u "/");
    repeat match goal with |- context [if ?b then _ else _] => destruct b end;
    reflexivity.
Qed.

Lemma displayImage_downloads (io : ArtIO) (p : string) (x y : Z) :
  downloads (snd (displayImage io p x y)) = 0%nat.
Proof.
  unfold displayImage.
  destruct (String.eqb p ""); [reflexivity|].
  destruct (ioStatSize io) as [[|z|z]|]; try reflexivity;
    destruct (ioChafa io), (ioChafaRun io); reflexivity.
Qed.

Lemma artworkStep_spec (sd : SpotifyDisplay) (io : ArtIO) (term : TerminalSize)
    (md : Metadata) :
  (artDue sd md = true ->
     fst (artworkStep sd io term md) = setArtURL sd (ArtURL md)
     /\ downloads (snd (artworkStep sd io term md)) = 1%nat) /\
  (artDue sd md = false -> artworkStep sd io term md = (sd, [])).
Proof.
  unfold artworkStep. fold (artDue sd md).
  split; intros Hd; rewrite Hd; [|reflexivity].
  assert (Hne : ArtURL md <> "").
  { unfold artDue in Hd. apply andb_true_iff in Hd as [_ H].
    apply negb_true_iff, String.eqb_neq in H. exact H. }
  pose proof (downloadArtwork_downloads (cacheDir (setArtURL sd (ArtURL md))) io
                (ArtURL md) Hne) as Hdl.
  destruct (downloadArtwork _ io (ArtURL md)) as [r ops] eqn:Edl.
  simpl in Hdl. destruct r as [imagePath|e|e].
  - destruct (negb (String.eqb imagePath "")).
    + pose proof (displayImage_downloads io imagePath (startX term) (startY term)) as Hdi.
      destruct (displayImage io imagePath _ _) as [r2 ops2].
      simpl in Hdi. destruct r2; simpl; split; try reflexivity;
        rewrite !downloads_app, Hdl, Hdi; reflexivity.
    + split; [reflexivity | exact Hdl].
  - simpl. split; [reflexivity|]. rewrite downloads_app, Hdl. reflexivity.
  - simpl. split; [reflexivity|]. rewrite downloads_app, Hdl. reflexivity.
Qed.

Lemma drawProgressBar_downloads (md : Metadata) (term : TerminalSize) :
  downloads (drawProgressBar md term) = 0%nat.
Proof. reflexivity. Qed.

Section LoopFacts.
Variable vs : dbusValue -> string.

(** A tick whose metadata read succeeds. *)
Lemma tickStep_ok (sd : SpotifyDisplay) (env : TickEnv) (md : Metadata) :
  getMetadata vs (props env) = Ok md ->
  loopOf (tickStep vs sd env) = Running /\
  stateOf (tickStep vs sd env)
    = fst (artworkStep sd (artIO env) (getTerminalSize sd (termW env) (termH env)) md) /\
  downloads (opsOf (tickStep vs sd env))
    = downloads (snd (artworkStep sd (artIO env)
                        (getTerminalSize sd (termW env) (termH env)) md)).
Proof.
  intros H. unfold tickStep. rewrite H.
  destruct (artworkStep _ _ _ _) as [sd' art].
  cbv beta iota. cbn [loopOf stateOf opsOf fst snd].
  split; [reflexivity|]. split; [reflexivity|].
  rewrite downloads_app. reflexivity.
Qed.

(** A tick whose metadata read fails. *)
Lemma tickStep_err (sd : SpotifyDisplay) (env : TickEnv) (e : string) :
  getMetadata vs (props env) = Err e ->
  tickStep vs sd env = (Running, sd, [OpLog ("Error getting metadata: " ++ e)]).
Proof. intros H. unfold tickStep. rewrite H. reflexivity. Qed.

(** A tick whose metadata read panics. *)
Lemma tickStep_panic (sd : SpotifyDisplay) (env : TickEnv) (e : string) :
  getMetadata vs (props env) = Panic e -> tickStep vs sd env = (Crashed, sd, []).
Proof. intros H. unfold tickStep. rewrite H. reflexivity. Qed.

(** Every tick presenting the reference [r] (or failing) either fetches
    nothing and keeps the state, or fetches once, from a slot that did not
    hold [r], and leaves [r] in the slot. *)
Lemma tickStep_same_ref (sd : SpotifyDisplay) (env : TickEnv) (r : string) :
  (forall md, getMetadata vs (props env) = Ok md -> ArtURL md = r) ->
  (downloads (opsOf (tickStep vs sd env)) = 0%nat /\ stateOf (tickStep vs sd env) = sd)
  \/ (downloads (opsOf (tickStep vs sd env)) = 1%nat
      /\ currentArtURL sd <> r
      /\ currentArtURL (stateOf (tickStep vs sd env)) = r).
Proof.
  intros Hr.
  destruct (getMetadata vs (props env)) as [md|e|e] eqn:Em.
  - specialize (Hr md eq_refl).
    destruct (tickStep_ok sd env md Em) as (Hl & Hs & Hd).
    rewrite Hs, Hd.
    set (term := getTerminalSize _ _ _).
    destruct (artworkStep_spec sd (artIO env) term md) as [Hdue Hnot].
    destruct (artDue sd md) eqn:Ed.
    + right. destruct (Hdue eq_refl) as [-> ->]. split; [reflexivity|]. split.
      * unfold artDue in Ed. apply andb_true_iff in Ed as [H _].
        apply negb_true_iff, String.eqb_neq in H. congruence.
      * simpl. exact Hr.
    + left. rewrite (Hnot eq_refl). split; reflexivity.
  - rewrite (tickStep_err sd env e Em). left. split; reflexivity.
  - rewrite (tickStep_panic sd env e Em). left. split; reflexivity.
Qed.

Lemma run_ticks (sd : SpotifyDisplay) (env : TickEnv) (envs : list TickEnv) :
  run vs sd (map EvTick (env :: envs))
  = let '(st, sd', ops) := tickStep vs sd env in
    match st with
    | Terminating => (Terminating, sd', ops)
    | Crashed => (Crashed, sd', ops)
    | Running => let '(st'', sd'', ops') := run vs sd' (map EvTick envs) in
                 (st'', sd'', app ops ops')
    end.
Proof. reflexivity. Qed.

End LoopFacts.

Section RunFacts.
Variable vs : dbusValue -> string.

(** Over consecutive ticks that all present the reference [r], at most one
    fetch starts, and none if the slot already holds [r]. *)
Lemma run_ticks_downloads (envs : list TickEnv) :
  forall (sd : SpotifyDisplay) (r : string),
  Forall (fun env => forall md, getMetadata vs (props env) = Ok md -> ArtURL md = r) envs ->
  (downloads (opsOf (run vs sd (map EvTick envs)))
   <= if String.eqb (currentArtURL sd) r then 0 else 1)%nat.
Proof.
  induction envs as [|env envs IH]; intros sd r Hall.
  - destruct (String.eqb (currentArtURL sd) r); cbv; auto.
  - inversion Hall as [|? ? Hr Hrest]; subst.
    rewrite run_ticks.
    pose proof (tickStep_same_ref vs sd env r Hr) as Hcase.
    destruct (tickStep vs sd env) as [[st sd'] ops]. simpl in Hcase.
    destruct st; cycle 1.
    1, 2: simpl; destruct Hcase as [[Hd _] | [Hd [Hne _]]]; rewrite Hd;
      [lia | destruct (String.eqb_spec (currentArtURL sd) r); [contradiction | lia]].
    specialize (IH sd' r Hrest).
    destruct (run vs sd' (map EvTick envs)) as [[st'' sd''] ops'].
    simpl in IH |- *. rewrite downloads_app.
    destruct Hcase as [[Hd ->] | [Hd [Hne Hs]]].
    + rewrite Hd. exact IH.
    + rewrite Hs, String.eqb_refl in IH.
      destruct (String.eqb_spec (currentArtURL sd) r); [contradiction|]. lia.
Qed.

End RunFacts.

Lemma wrap64_id (z : Z) : GoInt.in_int64 z -> GoInt.wrap64 z = z.
Proof.
  unfold GoInt.in_int64, GoInt.wrap64, GoInt.two64, GoInt.two63. intros Hz.
  destruct (Z.le_gt_cases 0 z).
  - rewrite Z.mod_small by lia.
    replace (z <? 2 ^ 63) with true by (symmetry; apply Z.ltb_lt; lia). reflexivity.
  - replace (z mod 2 ^ 64) with (z + 2 ^ 64).
    + replace (z + 2 ^ 64 <? 2 ^ 63) with false by (symmetry; apply Z.ltb_ge; lia). lia.
    + apply Z.mod_unique with (-1); lia.
Qed.

(** ** Strings, decimal decoding and [int] wrap-around *)

Lemma string_app_assoc (a b c : string) : (a ++ b) ++ c = a ++ b ++ c.
Proof. induction a as [|x a IH]; simpl; [reflexivity | rewrite IH; reflexivity]. Qed.

Lemma string_app_nil_r (a : string) : a ++ "" = a.
Proof. induction a as [|x a IH]; simpl; [reflexivity | rewrite IH; reflexivity]. Qed.

Lemma string_length_app (a b : string) :
  String.length (a ++ b) = (String.length a + String.length b)%nat.
Proof. induction a as [|x a IH]; simpl; [reflexivity | rewrite IH; reflexivity]. Qed.

Lemma repeatStr_length (s : string) (n : nat) :
  String.length (repeatStr s n) = (n * String.length s)%nat.
Proof.
  induction n as [|n IH]; simpl; [reflexivity|].
  rewrite string_length_app, IH. reflexivity.
Qed.

Lemma fmtIntZeroPad_two (n : Z) : 0 <= n < 100 -> fmtIntZeroPad 2 n = twoDigits n.
Proof.
  intros Hn.
  assert (Hall : forallb (fun k => String.eqb (fmtIntZeroPad 2 (Z.of_nat k))
                                              (twoDigits (Z.of_nat k)))
                         (seq 0 100) = true) by (vm_compute; reflexivity).
  rewrite forallb_forall in Hall.
  specialize (Hall (Z.to_nat n) ltac:(apply in_seq; lia)).
  rewrite Z2Nat.id in Hall by lia. apply String.eqb_eq, Hall.
Qed.

Lemma toUint_uint_to_string (d : Decimal.uint) : toUint (uint_to_string d) = Some d.
Proof. induction d; simpl; try rewrite IHd; reflexivity. Qed.

Lemma toUint_zeros (k : nat) (s : string) :
  toUint (zeros k ++ s) = option_map (Nat.iter k Decimal.D0) (toUint s).
Proof.
  induction k as [|k IH]; simpl.
  - destruct (toUint s); reflexivity.
  - rewrite IH. destruct (toUint s); reflexivity.
Qed.

Lemma of_uint_iter_D0 (k : nat) (d : Decimal.uint) :
  N.of_uint (Nat.iter k Decimal.D0 d) = N.of_uint d.
Proof.
  rewrite <- DecimalN.Unsigned.of_uint_norm, <- (DecimalN.Unsigned.of_uint_norm d).
  unfold Decimal.unorm. rewrite DecimalFacts.nzhead_iter_D0. reflexivity.
Qed.

(** [%02d] of a non-negative number decodes back to it. *)
Lemma toUint_fmt2 (n : Z) : 0 <= n ->
  exists d, toUint (fmtIntZeroPad 2 n) = Some d /\ Z.of_N (N.of_uint d) = n.
Proof.
  intros Hn. unfold fmtIntZeroPad.
  replace (n <? 0) with false by (symmetry; apply Z.ltb_ge; lia).
  unfold absDigits. rewrite toUint_zeros, toUint_uint_to_string. simpl.
  eexists. split; [reflexivity|].
  rewrite of_uint_iter_D0, DecimalN.Unsigned.of_to, Zabs2N.abs_N_spec, Z2N.id by lia.
  apply Z.abs_eq. exact Hn.
Qed.

Lemma splitColon_digits (a b : string) (d : Decimal.uint) :
  toUint a = Some d -> splitColon (a ++ ":" ++ b) = Some (a, b).
Proof.
  revert d. induction a as [|c a IH]; intros d Ha; [reflexivity|].
  simpl. destruct (Ascii.eqb_spec c ":") as [->|Hc].
  - simpl in Ha. discriminate Ha.
  - simpl in Ha. destruct (digitCons c); [|discriminate].
    destruct (toUint a) as [d'|] eqn:E; [|discriminate].
    simpl in IH. rewrite (IH d' eq_refl). reflexivity.
Qed.

Lemma wrap64_mod (z : Z) : GoInt.wrap64 z mod GoInt.two64 = z mod GoInt.two64.
Proof.
  unfold GoInt.wrap64. assert (H2 : GoInt.two64 <> 0) by (unfold GoInt.two64; lia).
  destruct (z mod GoInt.two64 <? GoInt.two63).
  - apply Z.mod_mod. exact H2.
  - rewrite Zminus_mod, Z_mod_same_full, Z.sub_0_r, !Z.mod_mod by exact H2. reflexivity.
Qed.

Lemma add_add (a b c : Z) : GoInt.add (GoInt.add a b) c = GoInt.add a (b + c).
Proof.
  unfold GoInt.add, GoInt.wrap64 at 1 3.
  assert (H : (GoInt.wrap64 (a + b) + c) mod GoInt.two64 = (a + (b + c)) mod GoInt.two64).
  { rewrite Zplus_mod, wrap64_mod, <- Zplus_mod. f_equal. lia. }
  rewrite H. reflexivity.
Qed.

(** ** Further facts: keyboard, loop, artwork and metadata *)

Lemma handleKeyboard_false (sd : SpotifyDisplay) (e : TermEvent) :
  fst (handleKeyboard sd e) = false -> snd (handleKeyboard sd e) = sd.
Proof.
  unfold handleKeyboard.
  destruct (evKey e), (evCh e =? rune_c); simpl; congruence.
Qed.

Lemma handleKeyboard_config (sd : SpotifyDisplay) (e : TermEvent) :
  sameConfig sd (snd (handleKeyboard sd e)) /\
  currentArtURL (snd (handleKeyboard sd e)) = currentArtURL sd.
Proof.
  unfold handleKeyboard, sameConfig.
  destruct (evCh e =? rune_c), (evKey e); simpl; repeat split.
Qed.

Lemma sameConfig_trans (a b c : SpotifyDisplay) :
  sameConfig a b -> sameConfig b c -> sameConfig a c.
Proof. unfold sameConfig. intuition congruence. Qed.

Lemma sameConfig_refl (a : SpotifyDisplay) : sameConfig a a.
Proof. unfold sameConfig. auto. Qed.

Lemma sameConfig_setArtURL (a : SpotifyDisplay) (u : string) :
  sameConfig a (setArtURL a u).
Proof. unfold sameConfig. simpl. auto. Qed.

Section StepFacts.
Variable vs : dbusValue -> string.

Lemma step_quit (sd : SpotifyDisplay) (ev : Event) :
  isQuit ev = true -> step vs sd ev = (Terminating, sd, []).
Proof.
  destruct ev as [e|env|]; simpl; [|discriminate|reflexivity].
  destruct (evType e); try discriminate. intros ->. reflexivity.
Qed.

Lemma step_not_quit (sd : SpotifyDisplay) (ev : Event) :
  isQuit ev = false -> tickPanics vs ev = false -> loopOf (step vs sd ev) = Running.
Proof.
  destruct ev as [e|env|]; simpl; [|intros _|discriminate].
  - destruct (evType e); try reflexivity. intros -> _.
    destruct (handleKeyboard sd e) as [[|] sd']; reflexivity.
  - unfold tickStep. destruct (getMetadata vs (props env)); [|reflexivity|discriminate].
    destruct (artworkStep _ _ _ _). reflexivity.
Qed.

Lemma step_panic (sd : SpotifyDisplay) (ev : Event) :
  tickPanics vs ev = true -> step vs sd ev = (Crashed, sd, []).
Proof.
  destruct ev as [e|env|]; simpl; try discriminate.
  unfold tickStep. destruct (getMetadata vs (props env)); try discriminate.
  reflexivity.
Qed.

(** Every step keeps the configuration; a step on anything but an input
    event keeps the alignments. *)
Lemma step_config (sd : SpotifyDisplay) (ev : Event) :
  sameConfig sd (stateOf (step vs sd ev)) /\
  (isInput ev = false ->
     horizontalAlign (stateOf (step vs sd ev)) = horizontalAlign sd /\
     verticalAlign (stateOf (step vs sd ev)) = verticalAlign sd).
Proof.
  destruct ev as [e|env|]; cbn [step isInput].
  - split; [|discriminate].
    destruct (evType e); try apply sameConfig_refl.
    destruct (evCh e =? rune_q); [apply sameConfig_refl|].
    destruct (handleKeyboard_config sd e) as [Hc _].
    destruct (handleKeyboard sd e) as [[|] sd']; cbn [stateOf snd] in *.
    + eapply sameConfig_trans; [exact Hc | apply sameConfig_setArtURL].
    + exact Hc.
  - intros. unfold tickStep.
    destruct (getMetadata vs (props env)) as [md|e|e];
      [|split; [apply sameConfig_refl | auto]..].
    set (term := getTerminalSize _ _ _).
    destruct (artworkStep_spec sd (artIO env) term md) as [Hdue Hnot].
    destruct (artworkStep sd (artIO env) term md) as [sd' art] eqn:Ea.
    cbn [stateOf].
    destruct (artDue sd md).
    + destruct (Hdue eq_refl) as [Hs _]. simpl in Hs. subst sd'.
      split; [apply sameConfig_setArtURL | simpl; auto].
    + specialize (Hnot eq_refl). injection Hnot as -> _.
      split; [apply sameConfig_refl | auto].
  - split; [apply sameConfig_refl | auto].
Qed.

End StepFacts.

Lemma downloadArtwork_ok_path (c : string) (io : ArtIO) (u p : string) :
  fst (downloadArtwork c io u) = Ok p -> p = imagePathOf c.
Proof.
  unfold downloadArtwork.
  destruct (String.eqb u ""); [discriminate|].
  destruct (GoStr.hasPrefix u "/");
    repeat match goal with |- context [if ?b then _ else _] => destruct b end;
    simpl; congruence.
Qed.

Lemma downloadArtwork_no_chafa (c : string) (io : ArtIO) (u p : string) :
  ~ In (OpRunChafa p) (snd (downloadArtwork c io u)).
Proof.
  unfold downloadArtwork.
  destruct (String.eqb u ""); [simpl; tauto|].
  destruct (GoStr.hasPrefix u "/");
    repeat match goal with |- context [if ?b then _ else _] => destruct b end;
    simpl; intuition discriminate.
Qed.

Lemma displayImage_chafa (io : ArtIO) (ip : string) (x y : Z) (p : string) :
  In (OpRunChafa p) (snd (displayImage io ip x y)) -> p = ip.
Proof.
  unfold displayImage.
  destruct (String.eqb ip ""); [simpl; tauto|].
  destruct (ioStatSize io) as [[|z|z]|]; simpl; try tauto;
    destruct (ioChafa io), (ioChafaRun io); simpl; intuition congruence.
Qed.

Lemma lookupOpt_none (m : list (string * dbusValue)) (k : string) :
  lookupOpt m k = None -> lookupV m k = VInvalid.
Proof.
  induction m as [|[k' v] m IH]; simpl; [reflexivity|].
  destruct (String.eqb k k'); [discriminate | exact IH].
Qed.

Lemma lookupV_filter (f : string * dbusValue -> bool) (m : list (string * dbusValue))
    (k : string) :
  (forall v, f (k, v) = true) -> lookupV (filter f m) k = lookupV m k.
Proof.
  intros Hf. induction m as [|[k' v] m IH]; simpl; [reflexivity|].
  destruct (String.eqb_spec k k') as [<-|Hne].
  - rewrite Hf. simpl. rewrite String.eqb_refl. reflexivity.
  - destruct (f (k', v)); simpl; [|exact IH].
    apply String.eqb_neq in Hne. rewrite Hne. exact IH.
Qed.

(** The two fill computations agree whenever the length is positive: they
    convert the same quotient and clamp it the same way. *)
Lemma progressOf_part000_agree (md : Metadata) :
  0 < Length md -> progressOf_part000 md = progressOf md.
Proof.
  intros Hl. unfold progressOf_part000, progressOf.
  replace (0 <? Length md) with true by (symmetry; apply Z.ltb_lt; lia).
  set (p := F64.to_int _).
  destruct (p <? 0) eqn:E1; [reflexivity|].
  destruct (p >? progressWidth); reflexivity.
Qed.

Lemma lookupOpt_filter (f : string * dbusValue -> bool) (m : list (string * dbusValue))
    (k : string) :
  (forall v, f (k, v) = true) -> lookupOpt (filter f m) k = lookupOpt m k.
Proof.
  intros Hf. induction m as [|[k' v] m IH]; simpl; [reflexivity|].
  destruct (String.eqb_spec k k') as [<-|Hne].
  - rewrite Hf. simpl. rewrite String.eqb_refl. reflexivity.
  - destruct (f (k', v)); simpl; [|exact IH].
    apply String.eqb_neq in Hne. rewrite Hne. exact IH.
Qed.

(** A quit event or a panicking tick ends the loop at once, with no
    output. *)
Lemma step_stop (vs : dbusValue -> string) (sd : SpotifyDisplay) (ev : Event) :
  isQuit ev || tickPanics vs ev = true ->
  step vs sd ev = (if isQuit ev then Terminating else Crashed, sd, []).
Proof.
  intros H. destruct (isQuit ev) eqn:Eq.
  - apply step_quit, Eq.
  - apply step_panic, H.
Qed.

(** * Claims *)

(** ** C1: the artwork cache slot and failed fetches *)

(** C1 (counterexample): the claim that a tick whose fetch fails leaves the
    cache slot [currentArtURL] unchanged is false: from the initial display,
    a tick presenting a CDN reference while the network is down records the
    reference in the slot although the download fails. *)
Lemma failed_fetch_updates_cache :
  ~ (forall (vs : dbusValue -> string) (sd : SpotifyDisplay) (env : TickEnv)
        (md : Metadata),
       getMetadata vs (props env) = Ok md ->
       artDue sd md = true ->
       isOk (fst (downloadArtwork (cacheDir sd) (artIO env) (ArtURL md))) = false ->
       currentArtURL (stateOf (tickStep vs sd env)) = currentArtURL sd).
Proof.
  intros H.
  specialize (H quotedVariantString (newSpotifyDisplay "/cache")
                (sampleTick offlineIO cdnArt) (sampleRecord cdnArt)
                eq_refl eq_refl eq_refl).
  vm_compute in H. discriminate H.
Qed.

(** C1 (amended): whenever a tick invokes the artwork pipeline (its art
    reference is non-empty and differs from the slot), the slot is set to
    that reference before the fetch, whatever the fetch's outcome, and the
    tick starts exactly one download; a failed fetch is not retried: the
    ticks that follow and present the same reference start no download.  On
    a tick that reads metadata but does not invoke the pipeline, and on a
    tick whose metadata read fails or panics, the display state is
    unchanged and nothing is downloaded. *)
Theorem tick_sets_cache_before_fetch (vs : dbusValue -> string)
    (sd : SpotifyDisplay) (env : TickEnv) :
  (forall md : Metadata,
     getMetadata vs (props env) = Ok md ->
     (ArtURL md <> currentArtURL sd -> ArtURL md <> "" ->
        stateOf (tickStep vs sd env) = setArtURL sd (ArtURL md) /\
        downloads (opsOf (tickStep vs sd env)) = 1%nat /\
        (forall envs : list TickEnv,
           Forall (fun env' => forall md', getMetadata vs (props env') = Ok md' ->
                                           ArtURL md' = ArtURL md) envs ->
           downloads (opsOf (run vs (stateOf (tickStep vs sd env)) (map EvTick envs)))
           = 0%nat)) /\
     ((ArtURL md = currentArtURL sd \/ ArtURL md = "") ->
        stateOf (tickStep vs sd env) = sd /\
        downloads (opsOf (tickStep vs sd env)) = 0%nat)) /\
  (forall e : string,
     (getMetadata vs (props env) = Err e \/ getMetadata vs (props env) = Panic e) ->
     stateOf (tickStep vs sd env) = sd /\ downloads (opsOf (tickStep vs sd env)) = 0%nat).
Proof.
  split.
  - intros md Hm. destruct (tickStep_ok vs sd env md Hm) as (_ & Hs & Hd).
    rewrite Hs, Hd.
    destruct (artworkStep_spec sd (artIO env)
                (getTerminalSize sd (termW env) (termH env)) md) as [Hdue Hnot].
    split.
    + intros H1 H2.
      assert (Ed : artDue sd md = true).
      { unfold artDue. apply String.eqb_neq in H1, H2. rewrite H1, H2. reflexivity. }
      destruct (Hdue Ed) as [Hst Hdl]. rewrite Hst, Hdl.
      split; [reflexivity|]. split; [reflexivity|].
      intros envs Hall.
      pose proof (run_ticks_downloads vs envs (setArtURL sd (ArtURL md)) (ArtURL md) Hall)
        as Hle.
      replace (currentArtURL (setArtURL sd (ArtURL md))) with (ArtURL md) in Hle
        by reflexivity.
      rewrite String.eqb_refl in Hle. lia.
    + intros H. rewrite Hnot; [split; reflexivity|]. unfold artDue.
      destruct H as [H|H]; rewrite H;
        [rewrite String.eqb_refl | rewrite String.eqb_refl, andb_false_r]; reflexivity.
  - intros e [He|He].
    + rewrite (tickStep_err vs sd env e He). split; reflexivity.
    + rewrite (tickStep_panic vs sd env e He). split; reflexivity.
Qed.

Lemma tick_sets_cache_before_fetch_witness :
  getMetadata quotedVariantString (props (sampleTick offlineIO cdnArt))
    = Ok (sampleRecord cdnArt) /\
  stateOf (tickStep quotedVariantString (newSpotifyDisplay "/cache")
             (sampleTick offlineIO cdnArt))
    = setArtURL (newSpotifyDisplay "/cache") cdnArt /\
  downloads (opsOf (tickStep quotedVariantString (newSpotifyDisplay "/cache")
                      (sampleTick offlineIO cdnArt))) = 1%nat /\
  downloads (opsOf (run quotedVariantString
                      (stateOf (tickStep quotedVariantString (newSpotifyDisplay "/cache")
                                  (sampleTick offlineIO cdnArt)))
                      (map EvTick [sampleTick offlineIO cdnArt; sampleTick okIO cdnArt])))
    = 0%nat /\
  stateOf (tickStep quotedVariantString (newSpotifyDisplay "/cache") brokenTick)
    = newSpotifyDisplay "/cache".
Proof.
  assert (Hok : getMetadata quotedVariantString (props (sampleTick offlineIO cdnArt))
                = Ok (sampleRecord cdnArt)) by reflexivity.
  destruct (proj1 (proj1 (tick_sets_cache_before_fetch quotedVariantString
                            (newSpotifyDisplay "/cache") (sampleTick offlineIO cdnArt))
                    (sampleRecord cdnArt) Hok) ltac:(discriminate) ltac:(discriminate))
    as (Hs & Hd & Hn).
  split; [exact Hok|]. split; [exact Hs|]. split; [exact Hd|]. split.
  - apply Hn. repeat constructor; intros md' Hmd'; vm_compute in Hmd';
      injection Hmd' as <-; reflexivity.
  - exact (proj1 (proj2 (tick_sets_cache_before_fetch quotedVariantString
                           (newSpotifyDisplay "/cache") brokenTick)
                    "GetProperty Metadata failed" (or_introl eq_refl))).
Defined.

(** ** C2: zero track length *)

(** C2: for every record with [Length = 0], whatever its position, the fill
    count is 0, the bar is 40 empty glyphs, and [drawProgressBar] prints it
    (the division is guarded, so nothing divides by zero). *)
Theorem drawProgressBar_zero_length (md : Metadata) (term : TerminalSize) :
  Length md = 0 ->
  progressOf md = 0 /\
  progressBar (progressOf md) = repeatStr emptyGlyph 40 /\
  In (OpPrint (repeatStr emptyGlyph 40)) (drawProgressBar md term).
Proof.
  intros H.
  assert (Hp : progressOf md = 0) by (unfold progressOf; rewrite H; reflexivity).
  split; [exact Hp|]. split.
  - rewrite Hp. reflexivity.
  - unfold drawProgressBar. rewrite Hp. simpl. tauto.
Qed.

Lemma drawProgressBar_zero_length_witness :
  Length (mkMeta 75 0) = 0 /\
  progressOf (mkMeta 75 0) = 0.
Proof.
  split; [reflexivity|].
  apply (drawProgressBar_zero_length (mkMeta 75 0)
           {| width := 120; height := 40; startX := 30; startY := 29 |}).
  reflexivity.
Defined.

(** ** C3: fill count for a positive length *)

(** C3 (counterexample): the fill count is not the rounded quotient: at
    position 1 s of a 24 s track, 1/24 * 40 = 1.67 rounds to 2, but the bar
    shows 1 filled cell. *)
Lemma progress_not_rounded :
  ~ (forall md : Metadata, 0 < Length md -> 0 <= Position md ->
       progressOf md = roundedFillSpec (Position md) (Length md)).
Proof.
  intros H. specialize (H (mkMeta 1 24) ltac:(simpl; lia) ltac:(simpl; lia)).
  vm_compute in H. discriminate H.
Qed.

(** C3 (amended): for [0 < Length < 2^53] (every length [getMetadata]
    produces, see [quot_micro_bound]) and [Position >= 0], the fill count is
    the float64 value [Position / Length * 40] truncated toward zero (Go's
    [int] conversion) and clamped to [0, 40]; it lies in [0, 40];
    [Position = Length] gives a full bar of 40 filled glyphs and
    [Position = 0] an empty one. *)
Theorem progress_truncated_clamped (md : Metadata) :
  0 < Length md < 2 ^ 53 -> 0 <= Position md ->
  progressOf md
    = clampFill (F64.to_int (F64.mul (F64.div (F64.of_int (Position md))
                                              (F64.of_int (Length md)))
                                     (F64.of_int progressWidth))) /\
  0 <= progressOf md <= progressWidth /\
  (Position md = Length md -> progressBar (progressOf md) = repeatStr filledGlyph 40) /\
  (Position md = 0 -> progressBar (progressOf md) = repeatStr emptyGlyph 40).
Proof.
  intros Hl Hp. split; [|split; [|split]].
  - unfold progressOf, clampFill.
    replace (0 <? Length md) with true by (symmetry; apply Z.ltb_lt; lia).
    reflexivity.
  - apply progressOf_range.
  - intros He. rewrite (progressOf_full md Hl He). reflexivity.
  - intros He. rewrite (progressOf_start md Hl He). reflexivity.
Qed.

Lemma progress_truncated_clamped_witness :
  (0 < Length (mkMeta 24 24) < 2 ^ 53 /\ 0 <= Position (mkMeta 24 24)) /\
  progressBar (progressOf (mkMeta 24 24)) = repeatStr filledGlyph 40.
Proof.
  split; [simpl; lia|].
  apply (progress_truncated_clamped (mkMeta 24 24) ltac:(simpl; lia) ltac:(simpl; lia)).
  reflexivity.
Defined.

(** ** C4: origin of the overlay *)

(** C4: for every terminal size and configuration (away from the [int]
    limits), [left] gives [startX = margin], [right] gives
    [width - minWidth - margin], [center] gives [(width - minWidth) / 2]
    truncated toward zero, and the same laws hold vertically with [top],
    [bottom], [center] and [contentHeight]; nothing clamps the origin, so a
    terminal too small for the content gives a negative origin under
    [right]/[bottom] and under [center] once the deficit reaches two cells. *)
Theorem getTerminalSize_origin (sd : SpotifyDisplay) (w h : Z) :
  smallInt w -> smallInt h -> smallInt (minWidth sd) ->
  smallInt (contentHeight sd) -> smallInt (margin sd) ->
  let t := getTerminalSize sd w h in
  (horizontalAlign sd = "left" -> startX t = margin sd) /\
  (horizontalAlign sd = "right" -> startX t = w - minWidth sd - margin sd) /\
  (horizontalAlign sd = "center" -> startX t = Z.quot (w - minWidth sd) 2) /\
  (verticalAlign sd = "top" -> startY t = margin sd) /\
  (verticalAlign sd = "bottom" -> startY t = h - contentHeight sd - margin sd) /\
  (verticalAlign sd = "center" -> startY t = Z.quot (h - contentHeight sd) 2) /\
  (horizontalAlign sd = "right" -> w < minWidth sd + margin sd -> startX t < 0) /\
  (horizontalAlign sd = "center" -> w + 2 <= minWidth sd -> startX t < 0) /\
  (verticalAlign sd = "bottom" -> h < contentHeight sd + margin sd -> startY t < 0) /\
  (verticalAlign sd = "center" -> h + 2 <= contentHeight sd -> startY t < 0).
Proof.
  cbv zeta. unfold smallInt. intros Hw Hh Hm Hc Hg. set (t := getTerminalSize sd w h).
  assert (Hsub : forall a b, smallInt a -> smallInt b -> GoInt.sub a b = a - b).
  { intros a b Ha Hb. apply wrap64_id. unfold smallInt, GoInt.in_int64, GoInt.two63 in *. lia. }
  assert (Hsub2 : forall a b c, smallInt a -> smallInt b -> smallInt c ->
                  GoInt.sub (GoInt.sub a b) c = a - b - c).
  { intros a b c Ha Hb Hc'. rewrite (Hsub a b Ha Hb).
    apply wrap64_id. unfold smallInt, GoInt.in_int64, GoInt.two63 in *. lia. }
  assert (HX : (horizontalAlign sd = "left" -> startX t = margin sd) /\
               (horizontalAlign sd = "right" -> startX t = w - minWidth sd - margin sd) /\
               (horizontalAlign sd = "center" -> startX t = Z.quot (w - minWidth sd) 2)).
  { unfold t, getTerminalSize. simpl startX.
    repeat split; intros E; rewrite E; simpl.
    - reflexivity.
    - apply Hsub2; assumption.
    - unfold GoInt.div. rewrite Hsub by assumption. reflexivity. }
  assert (HY : (verticalAlign sd = "top" -> startY t = margin sd) /\
               (verticalAlign sd = "bottom" -> startY t = h - contentHeight sd - margin sd) /\
               (verticalAlign sd = "center" -> startY t = Z.quot (h - contentHeight sd) 2)).
  { unfold t, getTerminalSize. simpl startY.
    repeat split; intros E; rewrite E; simpl.
    - reflexivity.
    - apply Hsub2; assumption.
    - unfold GoInt.div. rewrite Hsub by assumption. reflexivity. }
  destruct HX as (HX1 & HX2 & HX3). destruct HY as (HY1 & HY2 & HY3).
  repeat split; try assumption.
  - intros E Hlt. rewrite (HX2 E). lia.
  - intros E Hlt. rewrite (HX3 E).
    assert (Z.quot (w - minWidth sd) 2 <= -1).
    { rewrite <- (Z.opp_involutive (w - minWidth sd)), Z.quot_opp_l by lia.
      assert (1 <= Z.quot (- (w - minWidth sd)) 2) by (apply Z.quot_le_lower_bound; lia).
      lia. }
    lia.
  - intros E Hlt. rewrite (HY2 E). lia.
  - intros E Hlt. rewrite (HY3 E).
    assert (Z.quot (h - contentHeight sd) 2 <= -1).
    { rewrite <- (Z.opp_involutive (h - contentHeight sd)), Z.quot_opp_l by lia.
      assert (1 <= Z.quot (- (h - contentHeight sd)) 2) by (apply Z.quot_le_lower_bound; lia).
      lia. }
    lia.
Qed.

Lemma getTerminalSize_origin_witness :
  startX (getTerminalSize (newSpotifyDisplay "/cache") 50 40) = -5.
Proof.
  pose proof (getTerminalSize_origin (newSpotifyDisplay "/cache") 50 40
              ltac:(unfold smallInt; lia) ltac:(unfold smallInt; lia)
              ltac:(unfold smallInt; simpl; lia) ltac:(unfold smallInt; simpl; lia)
              ltac:(unfold smallInt; simpl; lia)) as H.
  cbv zeta in H. destruct H as (_ & _ & H & _).
  rewrite (H eq_refl). reflexivity.
Defined.

(** ** C5: when the artwork pipeline runs *)

(** C5: a tick starts an artwork fetch iff its metadata read succeeds with a
    non-empty art reference that differs from the cached one; a tick whose
    reference is empty (or that fails) never fetches; and over any run of
    consecutive ticks all presenting the same reference, at most one fetch
    starts. *)
Theorem artwork_fetch_iff_new_ref (vs : dbusValue -> string) :
  (forall sd env,
     (0 < downloads (opsOf (step vs sd (EvTick env))))%nat
     <-> exists md, getMetadata vs (props env) = Ok md /\
                    ArtURL md <> currentArtURL sd /\ ArtURL md <> "") /\
  (forall sd env,
     (forall md, getMetadata vs (props env) = Ok md -> ArtURL md = "") ->
     downloads (opsOf (step vs sd (EvTick env))) = 0%nat) /\
  (forall sd envs r,
     Forall (fun env => forall md, getMetadata vs (props env) = Ok md -> ArtURL md = r) envs ->
     (downloads (opsOf (run vs sd (map EvTick envs))) <= 1)%nat).
Proof.
  assert (Hiff : forall sd env,
     (0 < downloads (opsOf (step vs sd (EvTick env))))%nat
     <-> exists md, getMetadata vs (props env) = Ok md /\
                    ArtURL md <> currentArtURL sd /\ ArtURL md <> "").
  { intros sd env. simpl step.
    destruct (getMetadata vs (props env)) as [md|e|e] eqn:Em.
    - destruct (tickStep_ok vs sd env md Em) as (_ & _ & Hd). rewrite Hd.
      destruct (artworkStep_spec sd (artIO env)
                  (getTerminalSize sd (termW env) (termH env)) md) as [Hdue Hnot].
      destruct (artDue sd md) eqn:Ed.
      + rewrite (proj2 (Hdue eq_refl)). split; [intros _|intros _; lia].
        exists md. unfold artDue in Ed. apply andb_true_iff in Ed as [E1 E2].
        apply negb_true_iff, String.eqb_neq in E1, E2. auto.
      + rewrite (Hnot eq_refl). unfold downloads. simpl. split; [intros Hc; lia|].
        intros (md' & Heq & H1 & H2). injection Heq as <-.
        unfold artDue in Ed. apply String.eqb_neq in H1, H2.
        rewrite H1, H2 in Ed. discriminate.
    - rewrite (tickStep_err vs sd env e Em). unfold downloads. simpl. split; [intros Hc; lia|].
      intros (md & Heq & _). discriminate.
    - rewrite (tickStep_panic vs sd env e Em). unfold downloads. simpl. split; [intros Hc; lia|].
      intros (md & Heq & _). discriminate. }
  split; [exact Hiff|]. split.
  - intros sd env Hr.
    destruct (downloads (opsOf (step vs sd (EvTick env)))) eqn:Ed; [reflexivity|].
    exfalso. destruct (proj1 (Hiff sd env) ltac:(lia)) as (md & Hm & _ & Hne).
    apply Hne, Hr, Hm.
  - intros sd envs r Hall.
    pose proof (run_ticks_downloads vs envs sd r Hall).
    destruct (String.eqb (currentArtURL sd) r); lia.
Qed.

Lemma artwork_fetch_iff_new_ref_witness :
  downloads (opsOf (run quotedVariantString (newSpotifyDisplay "/cache")
                     (map EvTick [sampleTick okIO cdnArt; sampleTick okIO cdnArt;
                                  sampleTick offlineIO cdnArt]))) = 1%nat /\
  (downloads (opsOf (run quotedVariantString (newSpotifyDisplay "/cache")
                      (map EvTick [sampleTick okIO cdnArt; sampleTick okIO cdnArt;
                                   sampleTick offlineIO cdnArt]))) <= 1)%nat.
Proof.
  split; [vm_compute; reflexivity|].
  apply (proj2 (proj2 (artwork_fetch_iff_new_ref quotedVariantString))
           (newSpotifyDisplay "/cache") _ cdnArt).
  repeat constructor; intros md Hm; vm_compute in Hm; injection Hm as <-; reflexivity.
Defined.

(** ** C6: art-reference normalisation *)

(** C6: the raw art-URL string is first stripped of every leading and
    trailing quote character; a result starting with the CDN prefix is kept
    as is, one starting with [file://] loses that prefix, and anything else
    (as well as an absent [mpris:artUrl] entry) yields the empty reference;
    the art-URL entry never makes [getMetadata] fail. *)
Theorem normalizeArtURL_cases (raw : string) :
  let r := GoStr.trim1 raw quoteChar in
  (GoStr.hasPrefix r cdnPrefix = true -> normalizeArtURL raw = r) /\
  (GoStr.hasPrefix r cdnPrefix = false -> GoStr.hasPrefix r filePrefix = true ->
     filePrefix ++ normalizeArtURL raw = r) /\
  (GoStr.hasPrefix r cdnPrefix = false -> GoStr.hasPrefix r filePrefix = false ->
     normalizeArtURL raw = "") /\
  (forall vs m, lookupOpt m "mpris:artUrl" = None -> artURLOf vs m = "") /\
  (forall vs m v pv,
     isOk (getMetadata vs {| propMetadata := Some (VDict (("mpris:artUrl", v) :: m));
                             propPosition := pv |})
     = isOk (getMetadata vs {| propMetadata := Some (VDict m); propPosition := pv |})).
Proof.
  cbv zeta. unfold normalizeArtURL. fold cdnPrefix filePrefix.
  set (r := GoStr.trim1 raw quoteChar).
  split; [|split; [|split; [|split]]].
  - intros H. rewrite H. reflexivity.
  - intros H1 H2. rewrite H1, H2. apply hasPrefix_trimPrefix, H2.
  - intros H1 H2. rewrite H1, H2. reflexivity.
  - intros vs m H. unfold artURLOf. rewrite H. reflexivity.
  - intros vs m v pv. unfold getMetadata. simpl propMetadata. simpl propPosition.
    cbn [lookupV String.eqb Ascii.eqb Bool.eqb].
    destruct pv as [pv|]; [|reflexivity].
    destruct (int64Field (lookupV m "mpris:length")); [|reflexivity].
    destruct (int64Field pv); [|reflexivity].
    destruct (lookupV m "xesam:artist"); try reflexivity.
    cbv zeta. destruct (isZeroVariant _ || isZeroVariant _); reflexivity.
Qed.

Lemma normalizeArtURL_cases_witness :
  GoStr.hasPrefix (GoStr.trim1 quotedFileRef quoteChar) cdnPrefix = false /\
  GoStr.hasPrefix (GoStr.trim1 quotedFileRef quoteChar) filePrefix = true /\
  filePrefix ++ normalizeArtURL quotedFileRef
    = GoStr.trim1 quotedFileRef quoteChar.
Proof.
  split; [reflexivity|]. split; [reflexivity|].
  exact (proj1 (proj2 (normalizeArtURL_cases quotedFileRef)) eq_refl eq_refl).
Defined.

(** ** C7: a failed metadata read *)

(** C7: when [getMetadata] fails on a tick, the tick writes nothing to the
    terminal (only a log line), leaves the whole display state (alignment
    and cache slot) unchanged and keeps the loop running, so the rest of the
    run is exactly the run from the same state. *)
Theorem metadata_error_tick_noop (vs : dbusValue -> string) (sd : SpotifyDisplay)
    (env : TickEnv) (e : string) :
  getMetadata vs (props env) = Err e ->
  loopOf (step vs sd (EvTick env)) = Running /\
  stateOf (step vs sd (EvTick env)) = sd /\
  Forall (fun o => isDraw o = false) (opsOf (step vs sd (EvTick env))) /\
  (forall evs,
     run vs sd (EvTick env :: evs)
     = (loopOf (run vs sd evs), stateOf (run vs sd evs),
        OpLog ("Error getting metadata: " ++ e) :: opsOf (run vs sd evs))).
Proof.
  intros He. simpl step. rewrite (tickStep_err vs sd env e He).
  split; [reflexivity|]. split; [reflexivity|]. split.
  - repeat constructor.
  - intros evs. simpl run. rewrite (tickStep_err vs sd env e He).
    destruct (run vs sd evs) as [[st sd'] ops]. reflexivity.
Qed.

Lemma metadata_error_tick_noop_witness :
  getMetadata quotedVariantString (props brokenTick) = Err "GetProperty Metadata failed" /\
  stateOf (step quotedVariantString (newSpotifyDisplay "/cache") (EvTick brokenTick))
    = newSpotifyDisplay "/cache".
Proof.
  split; [reflexivity|].
  exact (proj1 (proj2 (metadata_error_tick_noop quotedVariantString
                         (newSpotifyDisplay "/cache") brokenTick _ eq_refl))).
Defined.

(** ** C8: sign of the seconds fields *)




(** ** C9: [formatTime] *)

(** C9: [formatTime] prints minutes ([/ 60]) and seconds ([% 60]) with
    [%02d]: 125 gives "02:05", 0 gives "00:00", 3600 gives "60:00"; for every
    non-negative count the seconds are two zero-padded digits, and below
    100 minutes so are the minutes. *)
Theorem formatTime_mmss :
  formatTime 125 = "02:05" /\ formatTime 0 = "00:00" /\ formatTime 3600 = "60:00" /\
  (forall s, 0 <= s ->
     formatTime s = fmtIntZeroPad 2 (s / 60) ++ ":" ++ twoDigits (s mod 60) /\
     (s < 6000 -> formatTime s = twoDigits (s / 60) ++ ":" ++ twoDigits (s mod 60))).
Proof.
  split; [reflexivity|]. split; [reflexivity|]. split; [reflexivity|].
  intros s Hs.
  assert (Hf : formatTime s = fmtIntZeroPad 2 (s / 60) ++ ":" ++ twoDigits (s mod 60)).
  { unfold formatTime, GoInt.div, GoInt.rem.
    rewrite Z.quot_div_nonneg, Z.rem_mod_nonneg by lia.
    rewrite (fmtIntZeroPad_two (s mod 60)); [reflexivity|].
    pose proof (Z.mod_pos_bound s 60). lia. }
  split; [exact Hf|].
  intros Hlt. rewrite Hf, fmtIntZeroPad_two; [reflexivity|].
  split; [apply Z.div_pos; lia|]. apply Z.div_lt_upper_bound; lia.
Qed.

Lemma formatTime_mmss_witness :
  formatTime 3599 = twoDigits (3599 / 60) ++ ":" ++ twoDigits (3599 mod 60).
Proof.
  destruct formatTime_mmss as (_ & _ & _ & H).
  apply (proj2 (H 3599 ltac:(lia))). lia.
Defined.

(** ** C10: the two layout implementations *)

Lemma alignOK_step (vs : dbusValue -> string) (sd : SpotifyDisplay) (ev : Event) :
  alignOK sd = true -> alignOK (stateOf (step vs sd ev)) = true.
Proof.
  intros Hok.
  assert (Hh : hAlignOK (horizontalAlign sd) = true)
    by (unfold alignOK in Hok; apply andb_true_iff in Hok; tauto).
  assert (Hv : vAlignOK (verticalAlign sd) = true)
    by (unfold alignOK in Hok; apply andb_true_iff in Hok; tauto).
  destruct ev as [event|env|]; cbn [step stateOf].
  - destruct (evType event); cbn [stateOf]; try exact Hok.
    destruct (evCh event =? rune_q); cbn [stateOf]; [exact Hok|].
    unfold handleKeyboard.
    destruct (evKey event); destruct (evCh event =? rune_c);
      cbn [stateOf]; unfold alignOK;
      cbn [horizontalAlign verticalAlign setAlign setArtURL];
      rewrite ?Hh, ?Hv; reflexivity.
  - unfold tickStep.
    destruct (getMetadata vs (props env)) as [md|e|e]; [|exact Hok..].
    set (term := getTerminalSize _ _ _).
    destruct (artworkStep_spec sd (artIO env) term md) as [Hdue Hnot].
    destruct (artworkStep sd (artIO env) term md) as [sd' art] eqn:Ea.
    cbn [stateOf].
    destruct (artDue sd md).
    + destruct (Hdue eq_refl) as [Hs _]. simpl in Hs. subst sd'.
      unfold alignOK; cbn [horizontalAlign verticalAlign setArtURL].
      rewrite Hh, Hv; reflexivity.
    + specialize (Hnot eq_refl). injection Hnot as -> _. exact Hok.
  - exact Hok.
Qed.

(** C10: on every display whose alignments lie in {left, center, right} x
    {top, center, bottom} (which holds initially and is kept by every step of
    the event loop) main.go's and part_000's [getTerminalSize] return the
    same origin for every terminal size; the horizontal origins agree
    everywhere, and for any other vertical alignment main.go uses the center
    formula and part_000 the bottom one. *)
Theorem getTerminalSize_impls_agree :
  (forall sd w h, alignOK sd = true ->
     getTerminalSize sd w h = getTerminalSize_part000 sd w h) /\
  (forall c, alignOK (newSpotifyDisplay c) = true) /\
  (forall vs sd ev, alignOK sd = true -> alignOK (stateOf (step vs sd ev)) = true) /\
  (forall sd w h, startX (getTerminalSize sd w h) = startX (getTerminalSize_part000 sd w h)) /\
  (forall sd w h, vAlignOK (verticalAlign sd) = false ->
     startY (getTerminalSize sd w h) = GoInt.div (GoInt.sub h (contentHeight sd)) 2 /\
     startY (getTerminalSize_part000 sd w h)
       = GoInt.sub (GoInt.sub h (contentHeight sd)) (margin sd)).
Proof.
  split; [|split; [|split; [|split]]].
  - intros sd w h Hok. unfold alignOK in Hok. apply andb_true_iff in Hok as [_ Hv].
    unfold vAlignOK in Hv. rewrite !orb_true_iff, !String.eqb_eq in Hv.
    unfold getTerminalSize, getTerminalSize_part000.
    destruct Hv as [[E|E]|E]; rewrite E; reflexivity.
  - intros c. reflexivity.
  - exact alignOK_step.
  - intros sd w h. reflexivity.
  - intros sd w h Hv. unfold vAlignOK in Hv. rewrite !orb_false_iff in Hv.
    destruct Hv as [[E1 E2] E3].
    unfold getTerminalSize, getTerminalSize_part000. simpl startY.
    rewrite E1, E2, E3. split; reflexivity.
Qed.

Lemma getTerminalSize_impls_agree_witness :
  getTerminalSize (setAlign (newSpotifyDisplay "/cache") "right" "top") 100 30
  = getTerminalSize_part000 (setAlign (newSpotifyDisplay "/cache") "right" "top") 100 30.
Proof.
  exact (proj1 getTerminalSize_impls_agree
           (setAlign (newSpotifyDisplay "/cache") "right" "top") 100 30 eq_refl).
Defined.

(** * Further properties of the program *)

(** ** Keyboard and input events *)

(** X1: [handleKeyboard] (main.go) asks for a redraw exactly on an arrow key
    or the rune ['c']; ['c'] centres both alignments whatever the key; the
    event changes neither the configuration nor the artwork slot, and
    changes nothing at all when no redraw is asked for. *)
Theorem handleKeyboard_redraw (sd : SpotifyDisplay) (e : TermEvent) :
  (fst (handleKeyboard sd e) = true <-> isArrow (evKey e) = true \/ evCh e = rune_c) /\
  (evCh e = rune_c -> snd (handleKeyboard sd e) = setAlign sd "center" "center") /\
  sameConfig sd (snd (handleKeyboard sd e)) /\
  currentArtURL (snd (handleKeyboard sd e)) = currentArtURL sd /\
  (fst (handleKeyboard sd e) = false -> snd (handleKeyboard sd e) = sd).
Proof.
  destruct (handleKeyboard_config sd e) as [Hc Ha].
  split; [|split; [|split; [exact Hc | split; [exact Ha | apply handleKeyboard_false]]]].
  - unfold handleKeyboard.
    destruct (Z.eqb_spec (evCh e) rune_c) as [Ec|Ec];
      destruct (evKey e); simpl; split; auto; intros [H|H]; congruence.
  - intros Ec. unfold handleKeyboard. rewrite Ec, Z.eqb_refl.
    destruct (evKey e); reflexivity.
Qed.

Lemma handleKeyboard_redraw_witness :
  evCh {| evType := EventKey; evKey := KeyArrowUp; evCh := rune_c |} = rune_c /\
  snd (handleKeyboard (newSpotifyDisplay "/cache")
         {| evType := EventKey; evKey := KeyArrowUp; evCh := rune_c |})
  = setAlign (newSpotifyDisplay "/cache") "center" "center".
Proof.
  split; [reflexivity|].
  exact (proj1 (proj2 (handleKeyboard_redraw (newSpotifyDisplay "/cache")
                         {| evType := EventKey; evKey := KeyArrowUp; evCh := rune_c |}))
           eq_refl).
Defined.

(** X3: a key that changes the alignment forces the artwork to be fetched
    again: right after it, a tick whose metadata read succeeds with a
    non-empty reference starts exactly one fetch, even when that reference
    was already cached, and records it in the slot. *)
Theorem redraw_then_tick_refetches (vs : dbusValue -> string) (sd : SpotifyDisplay)
    (e : TermEvent) (env : TickEnv) (md : Metadata) :
  evType e = EventKey -> evCh e <> rune_q -> fst (handleKeyboard sd e) = true ->
  getMetadata vs (props env) = Ok md -> ArtURL md <> "" ->
  loopOf (run vs sd [EvInput e; EvTick env]) = Running /\
  downloads (opsOf (run vs sd [EvInput e; EvTick env])) = 1%nat /\
  currentArtURL (stateOf (run vs sd [EvInput e; EvTick env])) = ArtURL md.
Proof.
  intros Ht Hq Hr Hm Hne.
  assert (Hs : step vs sd (EvInput e)
               = (Running, setArtURL (snd (handleKeyboard sd e)) "", [OpClearScreen])).
  { unfold step. rewrite Ht.
    replace (evCh e =? rune_q) with false by (symmetry; apply Z.eqb_neq; exact Hq).
    destruct (handleKeyboard sd e) as [b sd1]. simpl in Hr. subst b. reflexivity. }
  set (sd2 := setArtURL (snd (handleKeyboard sd e)) "") in Hs.
  assert (Hdue : artDue sd2 md = true).
  { unfold artDue, sd2. cbn [currentArtURL setArtURL].
    apply String.eqb_neq in Hne. rewrite Hne. reflexivity. }
  destruct (tickStep_ok vs sd2 env md Hm) as (Hl & Hst & Hd).
  destruct (artworkStep_spec sd2 (artIO env)
              (getTerminalSize sd2 (termW env) (termH env)) md) as [Hdue' _].
  destruct (Hdue' Hdue) as [Hfst Hdl].
  cbn [run]. rewrite Hs. cbn [run step].
  destruct (tickStep vs sd2 env) as [[st sd'] ops] eqn:Et.
  cbn [loopOf stateOf opsOf] in Hl, Hst, Hd. subst st.
  cbn [loopOf stateOf opsOf].
  split; [reflexivity|]. split.
  - rewrite !downloads_app, Hd, Hdl. reflexivity.
  - rewrite Hst, Hfst. reflexivity.
Qed.

Lemma redraw_then_tick_refetches_witness :
  downloads (opsOf (run quotedVariantString (setArtURL (newSpotifyDisplay "/cache") cdnArt)
                      [EvInput {| evType := EventKey; evKey := KeyArrowLeft; evCh := 0 |};
                       EvTick (sampleTick okIO cdnArt)])) = 1%nat.
Proof.
  exact (proj1 (proj2 (redraw_then_tick_refetches quotedVariantString
                         (setArtURL (newSpotifyDisplay "/cache") cdnArt)
                         {| evType := EventKey; evKey := KeyArrowLeft; evCh := 0 |}
                         (sampleTick okIO cdnArt) (sampleRecord cdnArt)
                         eq_refl ltac:(discriminate) eq_refl eq_refl ltac:(discriminate)))).
Defined.

(** ** The event loop over a sequence of events *)

(** X4: the loop keeps running exactly as long as it meets neither a quit
    event (a signal or the key ['q']) nor a tick whose metadata read panics
    (a missing title or album entry); at the first such event it stops,
    returning ([Terminating]) on a quit and crashing ([Crashed]) on a
    panic, and no event after it is ever processed. *)
Theorem run_stops (vs : dbusValue -> string) (sd : SpotifyDisplay) :
  (forall evs, loopOf (run vs sd evs) = Running
               <-> forallb (fun ev => negb (isQuit ev || tickPanics vs ev)) evs = true) /\
  (forall pre ev post,
     forallb (fun x => negb (isQuit x || tickPanics vs x)) pre = true ->
     isQuit ev || tickPanics vs ev = true ->
     run vs sd (pre ++ ev :: post) = run vs sd (pre ++ [ev]) /\
     loopOf (run vs sd (pre ++ ev :: post)) = if isQuit ev then Terminating else Crashed).
Proof.
  split.
  - intros evs. revert sd. induction evs as [|ev evs IH]; intros sd.
    + simpl. split; reflexivity.
    + cbn [run forallb].
      destruct (isQuit ev || tickPanics vs ev) eqn:Es.
      * rewrite (step_stop vs sd ev Es). cbn [negb andb].
        split; [|discriminate]. destruct (isQuit ev); discriminate.
      * apply orb_false_iff in Es as [Eq Ep].
        pose proof (step_not_quit vs sd ev Eq Ep) as Hl.
        destruct (step vs sd ev) as [[st sd'] ops]. cbn [loopOf] in Hl. subst st.
        specialize (IH sd'). destruct (run vs sd' evs) as [[st'' sd''] ops'].
        simpl in IH |- *. exact IH.
  - intros pre ev post Hpre Hs. revert sd. induction pre as [|x pre IH]; intros sd.
    + simpl. rewrite (step_stop vs sd ev Hs).
      destruct (isQuit ev); split; reflexivity.
    + cbn [forallb] in Hpre. apply andb_true_iff in Hpre as [Hx Hpre].
      apply negb_true_iff, orb_false_iff in Hx as [Eq Ep].
      pose proof (step_not_quit vs sd x Eq Ep) as Hl.
      cbn [app run]. destruct (step vs sd x) as [[st sd'] ops].
      cbn [loopOf] in Hl. subst st.
      destruct (IH Hpre sd') as [Ha Hb].
      rewrite Ha. split; [reflexivity|].
      rewrite <- Ha.
      destruct (run vs sd' (pre ++ ev :: post)) as [[st'' sd''] ops'].
      exact Hb.
Qed.

Lemma run_stops_witness :
  run quotedVariantString (newSpotifyDisplay "/cache")
      ([EvTick brokenTick] ++ EvTick noAlbumTick :: [EvTick (sampleTick okIO cdnArt)])
  = run quotedVariantString (newSpotifyDisplay "/cache")
        ([EvTick brokenTick] ++ [EvTick noAlbumTick]) /\
  loopOf (run quotedVariantString (newSpotifyDisplay "/cache")
            ([EvTick brokenTick] ++ EvTick noAlbumTick :: [EvTick (sampleTick okIO cdnArt)]))
  = Crashed.
Proof.
  exact (proj2 (run_stops quotedVariantString (newSpotifyDisplay "/cache"))
           [EvTick brokenTick] (EvTick noAlbumTick) [EvTick (sampleTick okIO cdnArt)]
           ltac:(vm_compute; reflexivity) ltac:(vm_compute; reflexivity)).
Defined.

(** X6: no run of the event loop ever changes the configuration (cache
    directory, content width and height, margin); and the alignments change
    only through input events. *)
Theorem run_keeps_config (vs : dbusValue -> string) (evs : list Event) :
  forall sd : SpotifyDisplay,
  sameConfig sd (stateOf (run vs sd evs)) /\
  (existsb isInput evs = false ->
     horizontalAlign (stateOf (run vs sd evs)) = horizontalAlign sd /\
     verticalAlign (stateOf (run vs sd evs)) = verticalAlign sd).
Proof.
  induction evs as [|ev evs IH]; intros sd.
  - split; [apply sameConfig_refl | auto].
  - cbn [run existsb].
    destruct (step_config vs sd ev) as [Hc Ha].
    destruct (step vs sd ev) as [[st sd1] ops]. cbn [stateOf] in Hc, Ha.
    destruct (IH sd1) as [Hc' Ha'].
    destruct st.
    + destruct (run vs sd1 evs) as [[st2 sd2] ops2]. cbn [stateOf] in Hc', Ha' |- *.
      split; [eapply sameConfig_trans; eassumption|].
      intros Hn. apply orb_false_iff in Hn as [H1 H2].
      destruct (Ha H1), (Ha' H2). split; congruence.
    + cbn [stateOf]. split; [exact Hc|].
      intros Hn. apply orb_false_iff in Hn as [H1 _]. exact (Ha H1).
    + cbn [stateOf]. split; [exact Hc|].
      intros Hn. apply orb_false_iff in Hn as [H1 _]. exact (Ha H1).
Qed.

Lemma run_keeps_config_witness :
  horizontalAlign (stateOf (run quotedVariantString (newSpotifyDisplay "/cache")
                              [EvTick (sampleTick okIO cdnArt); EvTick brokenTick]))
  = "center".
Proof.
  exact (proj1 (proj2 (run_keeps_config quotedVariantString
                         [EvTick (sampleTick okIO cdnArt); EvTick brokenTick]
                         (newSpotifyDisplay "/cache")) eq_refl)).
Defined.

(** ** Artwork pipeline *)

(** X7: a reference that starts with ['/'] is read from the local file
    system: the outcome of [downloadArtwork] does not depend on the network
    at all, and it succeeds exactly when opening the file, creating the cache
    file and copying succeed. *)
Theorem downloadArtwork_local (c : string) (io io' : ArtIO) (u : string) :
  GoStr.hasPrefix u "/" = true ->
  (ioOpenLocal io' = ioOpenLocal io -> ioCreate io' = ioCreate io ->
   ioCopy io' = ioCopy io -> downloadArtwork c io' u = downloadArtwork c io u) /\
  isOk (fst (downloadArtwork c io u)) = ioOpenLocal io && ioCreate io && ioCopy io.
Proof.
  intros H.
  assert (Hne : String.eqb u "" = false) by (destruct u; [discriminate H | reflexivity]).
  unfold downloadArtwork. rewrite Hne, H. split.
  - intros -> -> ->. reflexivity.
  - destruct (ioOpenLocal io), (ioCreate io), (ioCopy io); reflexivity.
Qed.

Lemma downloadArtwork_local_witness :
  isOk (fst (downloadArtwork "/cache" offlineIO "/home/u/cover.jpg")) = true.
Proof.
  exact (proj2 (downloadArtwork_local "/cache" offlineIO okIO "/home/u/cover.jpg" eq_refl)).
Defined.

(** X8: [downloadArtwork] refuses the empty reference without any effect;
    a remote reference succeeds exactly when the request is built and sent,
    the status is 200 (any other status, even another 2xx, is an error), and
    the cache file is created and written; every success returns the same
    cache file [cacheDir/current_artwork.png]. *)
Theorem downloadArtwork_remote (c : string) (io : ArtIO) (u : string) :
  downloadArtwork c io "" = (Err "no artwork URL provided", []) /\
  (forall p, fst (downloadArtwork c io u) = Ok p -> p = imagePathOf c) /\
  (u <> "" -> GoStr.hasPrefix u "/" = false ->
     isOk (fst (downloadArtwork c io u))
     = ioNewRequest io && ioDo io && (ioStatus io =? 200) && ioCreate io && ioCopy io).
Proof.
  split; [reflexivity|]. split; [intros p; apply downloadArtwork_ok_path|].
  intros Hne Hp. apply String.eqb_neq in Hne.
  unfold downloadArtwork. rewrite Hne, Hp.
  destruct (ioNewRequest io), (ioDo io), (ioStatus io =? 200), (ioCreate io), (ioCopy io);
    reflexivity.
Qed.

Lemma downloadArtwork_remote_witness :
  isOk (fst (downloadArtwork "/cache"
               {| ioOpenLocal := true; ioCreate := true; ioCopy := true;
                  ioNewRequest := true; ioDo := true; ioStatus := 204;
                  ioStatSize := Some 1000; ioChafa := true; ioChafaRun := true |}
               cdnArt)) = false.
Proof.
  rewrite (proj2 (proj2 (downloadArtwork_remote "/cache"
               {| ioOpenLocal := true; ioCreate := true; ioCopy := true;
                  ioNewRequest := true; ioDo := true; ioStatus := 204;
                  ioStatSize := Some 1000; ioChafa := true; ioChafaRun := true |}
               cdnArt)) ltac:(discriminate) eq_refl).
  reflexivity.
Defined.

(** X9: [displayImage] succeeds exactly when the path is non-empty, the file
    exists and is not empty, chafa is installed and exits with status 0; it
    writes to the terminal all or nothing: either nothing, or save the
    cursor, move to the overlay origin, run chafa and restore the cursor,
    the cursor being restored even when chafa fails. *)
Theorem displayImage_all_or_nothing (io : ArtIO) (p : string) (x y : Z) :
  isOk (fst (displayImage io p x y))
    = negb (String.eqb p "") && statNonEmpty io && ioChafa io && ioChafaRun io /\
  filter isDraw (snd (displayImage io p x y))
    = if negb (String.eqb p "") && statNonEmpty io && ioChafa io
      then [OpSaveCursor; OpMove x y; OpRunChafa p; OpRestoreCursor] else [].
Proof.
  unfold displayImage, statNonEmpty.
  destruct (String.eqb p ""); [split; reflexivity|].
  destruct (ioStatSize io) as [[|z|z]|]; simpl; try (split; reflexivity);
    destruct (ioChafa io), (ioChafaRun io); split; reflexivity.
Qed.

(** X10: a tick shows artwork only right after downloading it: if a tick
    runs chafa on a path, its metadata read succeeded with a reference that
    was due, [downloadArtwork] returned that path for it on this tick, and
    the path is the cache file. *)
Theorem tick_chafa_shows_fresh_download (vs : dbusValue -> string) (sd : SpotifyDisplay)
    (env : TickEnv) (p : string) :
  In (OpRunChafa p) (opsOf (step vs sd (EvTick env))) ->
  p = imagePathOf (cacheDir sd) /\
  exists md, getMetadata vs (props env) = Ok md /\ artDue sd md = true /\
             fst (downloadArtwork (cacheDir sd) (artIO env) (ArtURL md)) = Ok p.
Proof.
  cbn [step]. unfold tickStep.
  destruct (getMetadata vs (props env)) as [md|e|e] eqn:Em;
    [|simpl; intros [H|[]]; discriminate | simpl; intros []].
  set (term := getTerminalSize _ _ _).
  destruct (artworkStep sd (artIO env) term md) as [sd' art] eqn:Ea.
  cbn [opsOf]. intros Hin. apply in_app_or in Hin as [Hin|Hin].
  { unfold drawProgressBar in Hin. simpl in Hin.
    repeat destruct Hin as [Hin|Hin]; try discriminate; contradiction. }
  unfold artworkStep in Ea. fold (artDue sd md) in Ea.
  destruct (artDue sd md) eqn:Ed; [|injection Ea as _ <-; contradiction].
  cbv zeta in Ea. cbn [cacheDir setArtURL] in Ea.
  pose proof (downloadArtwork_no_chafa (cacheDir sd) (artIO env) (ArtURL md) p) as Hnd.
  pose proof (downloadArtwork_ok_path (cacheDir sd) (artIO env) (ArtURL md)) as Hpath.
  destruct (downloadArtwork (cacheDir sd) (artIO env) (ArtURL md)) as [r ops] eqn:Edl.
  cbn [fst snd] in Hnd, Hpath.
  destruct r as [ip|er|er].
  - destruct (negb (String.eqb ip "")).
    + pose proof (displayImage_chafa (artIO env) ip (startX term) (startY term) p) as Hdi.
      destruct (displayImage (artIO env) ip (startX term) (startY term)) as [r2 ops2].
      cbn [snd] in Hdi.
      assert (Hp : p = ip).
      { destruct r2; injection Ea as _ <-;
          repeat (apply in_app_or in Hin as [Hin|Hin]);
          solve [contradiction | apply Hdi; exact Hin | destruct Hin as [Hin|[]]; discriminate]. }
      subst ip. split; [apply Hpath; reflexivity|].
      exists md. rewrite Edl. auto.
    + injection Ea as _ <-. contradiction.
  - injection Ea as _ <-. apply in_app_or in Hin as [Hin|Hin]; [contradiction|].
    destruct Hin as [Hin|[]]; discriminate.
  - injection Ea as _ <-. apply in_app_or in Hin as [Hin|Hin]; [contradiction|].
    destruct Hin as [Hin|[]]; discriminate.
Qed.

Lemma tick_chafa_shows_fresh_download_witness :
  In (OpRunChafa (imagePathOf "/cache"))
     (opsOf (step quotedVariantString (newSpotifyDisplay "/cache")
                  (EvTick (sampleTick okIO cdnArt)))) /\
  imagePathOf "/cache" = imagePathOf (cacheDir (newSpotifyDisplay "/cache")).
Proof.
  assert (H : In (OpRunChafa (imagePathOf "/cache"))
                (opsOf (step quotedVariantString (newSpotifyDisplay "/cache")
                             (EvTick (sampleTick okIO cdnArt))))).
  { vm_compute. repeat (first [left; reflexivity | right]). }
  split; [exact H|].
  exact (proj1 (tick_chafa_shows_fresh_download quotedVariantString
                  (newSpotifyDisplay "/cache") (sampleTick okIO cdnArt) _ H)).
Defined.

(** ** Progress bar and time text *)

(** X11: the bar [drawProgressBar] prints always has 40 glyphs: the fill
    count of [━] followed by [─] for the rest, 120 bytes of UTF-8. *)
Theorem progressBar_forty_glyphs (md : Metadata) (term : TerminalSize) :
  In (OpPrint (progressBar (progressOf md))) (drawProgressBar md term) /\
  progressBar (progressOf md)
    = repeatStr filledGlyph (Z.to_nat (progressOf md))
      ++ repeatStr emptyGlyph (40 - Z.to_nat (progressOf md)) /\
  String.length (progressBar (progressOf md)) = 120%nat.
Proof.
  pose proof (progressOf_range md) as Hr. unfold progressWidth in Hr.
  assert (Hn : Z.to_nat (progressWidth - progressOf md) = (40 - Z.to_nat (progressOf md))%nat).
  { unfold progressWidth. rewrite Z2Nat.inj_sub by lia. reflexivity. }
  split; [|split].
  - unfold drawProgressBar. simpl. tauto.
  - unfold progressBar. rewrite Hn. reflexivity.
  - unfold progressBar. rewrite Hn, string_length_app, !repeatStr_length.
    change (String.length filledGlyph) with 3%nat.
    change (String.length emptyGlyph) with 3%nat.
    assert (Z.to_nat (progressOf md) <= 40)%nat by lia. lia.
Qed.

(** X12: for a track and position under 100 minutes the time text is the
    11 bytes [mm:ss/mm:ss], and [drawProgressBar] ends by printing it 14
    columns into the bar, on the row below it. *)
Theorem timeText_centred (md : Metadata) (term : TerminalSize) :
  0 <= Position md < 6000 -> 0 <= Length md < 6000 ->
  let timeText := formatTime (Position md) ++ "/" ++ formatTime (Length md) in
  String.length timeText = 11%nat /\
  exists pre,
    drawProgressBar md term
    = (pre ++ [OpMove (GoInt.add (GoInt.add (startX term) 20) 14) (GoInt.add (startY term) 5);
               OpPrint timeText])%list.
Proof.
  intros Hp Hl. cbv zeta.
  assert (Hf : forall s, 0 <= s < 6000 -> String.length (formatTime s) = 5%nat).
  { intros s Hs. unfold formatTime, GoInt.div, GoInt.rem.
    rewrite Z.quot_div_nonneg, Z.rem_mod_nonneg by lia.
    pose proof (Z.mod_pos_bound s 60 ltac:(lia)).
    assert (0 <= s / 60 < 100) by (split; [apply Z.div_pos | apply Z.div_lt_upper_bound]; lia).
    rewrite !fmtIntZeroPad_two by lia. reflexivity. }
  assert (Hlen : String.length (formatTime (Position md) ++ "/" ++ formatTime (Length md))
                 = 11%nat).
  { rewrite string_length_app, Hf by lia. simpl. rewrite Hf by lia. reflexivity. }
  split; [exact Hlen|].
  unfold drawProgressBar. rewrite Hlen.
  exists [ OpMove (GoInt.add (startX term) 20) (GoInt.add (startY term) 4);
           OpPrint (repeatStr " " 60);
           OpMove (GoInt.add (startX term) 20) (GoInt.add (startY term) 5);
           OpPrint (repeatStr " " 60);
           OpMove (GoInt.add (startX term) 20) (GoInt.add (startY term) 4);
           OpPrint (progressBar (progressOf md)) ].
  reflexivity.
Qed.

Lemma timeText_centred_witness :
  String.length (formatTime (Position (mkMeta 30 200)) ++ "/"
                 ++ formatTime (Length (mkMeta 30 200))) = 11%nat.
Proof.
  exact (proj1 (timeText_centred (mkMeta 30 200)
                  {| width := 120; height := 40; startX := 30; startY := 29 |}
                  ltac:(simpl; lia) ltac:(simpl; lia))).
Defined.


(** ** Metadata adapter *)

(** X13: [getMetadata] has three outcomes.  It succeeds exactly when the
    [Metadata] property is a dictionary, the [Position] read succeeds, the
    length entry and the position are [int64] or [uint64] values, the
    artist entry is a string array, and the title and album entries are
    present.  When everything but the title or album holds, it panics (the
    [String()] call on the missing entry).  A dictionary without a
    [mpris:length] or [xesam:artist] entry always gives an error, never a
    panic. *)
Theorem getMetadata_outcomes (vs : dbusValue -> string) :
  (forall pr : PlayerProps,
     isOk (getMetadata vs pr) = true <->
     exists m pv arts,
       propMetadata pr = Some (VDict m) /\ propPosition pr = Some pv /\
       int64Field (lookupV m "mpris:length") <> None /\ int64Field pv <> None /\
       lookupV m "xesam:artist" = VStringArray arts /\
       lookupV m "xesam:title" <> VInvalid /\ lookupV m "xesam:album" <> VInvalid) /\
  (forall pr : PlayerProps,
     isPanic (getMetadata vs pr) = true <->
     exists m pv arts,
       propMetadata pr = Some (VDict m) /\ propPosition pr = Some pv /\
       int64Field (lookupV m "mpris:length") <> None /\ int64Field pv <> None /\
       lookupV m "xesam:artist" = VStringArray arts /\
       (lookupV m "xesam:title" = VInvalid \/ lookupV m "xesam:album" = VInvalid)) /\
  (forall m pv,
     lookupOpt m "mpris:length" = None \/ lookupOpt m "xesam:artist" = None ->
     exists e, getMetadata vs {| propMetadata := Some (VDict m); propPosition := pv |} = Err e).
Proof.
  assert (Hz : forall v, isZeroVariant v = true <-> v = VInvalid)
    by (intros []; simpl; split; congruence).
  assert (Hnz : forall v, isZeroVariant v = false <-> v <> VInvalid)
    by (intros []; simpl; split; congruence).
  split; [|split].
  - intros pr. unfold getMetadata. split.
    + destruct (propMetadata pr) as [v|]; [|discriminate].
      destruct v as [| | | | |m|]; try discriminate.
      destruct (propPosition pr) as [pv|]; [|discriminate].
      destruct (int64Field (lookupV m "mpris:length")) eqn:El; [|discriminate].
      destruct (int64Field pv) eqn:Ep; [|discriminate].
      destruct (lookupV m "xesam:artist") as [| | | |arts| |] eqn:Ea; try discriminate.
      cbv zeta.
      destruct (isZeroVariant (lookupV m "xesam:title")) eqn:Et; [discriminate|].
      destruct (isZeroVariant (lookupV m "xesam:album")) eqn:Eb; [discriminate|].
      intros _. exists m, pv, arts.
      apply Hnz in Et, Eb. repeat split; congruence.
    + intros (m & pv & arts & H1 & H2 & H3 & H4 & H5 & H6 & H7).
      rewrite H1, H2, H5.
      destruct (int64Field (lookupV m "mpris:length")); [|congruence].
      destruct (int64Field pv); [|congruence]. cbv zeta.
      apply Hnz in H6, H7. rewrite H6, H7. reflexivity.
  - intros pr. unfold getMetadata. split.
    + destruct (propMetadata pr) as [v|]; [|discriminate].
      destruct v as [| | | | |m|]; try discriminate.
      destruct (propPosition pr) as [pv|]; [|discriminate].
      destruct (int64Field (lookupV m "mpris:length")) eqn:El; [|discriminate].
      destruct (int64Field pv) eqn:Ep; [|discriminate].
      destruct (lookupV m "xesam:artist") as [| | | |arts| |] eqn:Ea; try discriminate.
      cbv zeta.
      destruct (isZeroVariant (lookupV m "xesam:title") || isZeroVariant (lookupV m "xesam:album"))
        eqn:Ez; [|discriminate].
      intros _. exists m, pv, arts.
      apply orb_true_iff in Ez. rewrite !Hz in Ez.
      repeat split; congruence || tauto.
    + intros (m & pv & arts & H1 & H2 & H3 & H4 & H5 & H6).
      rewrite H1, H2, H5.
      destruct (int64Field (lookupV m "mpris:length")); [|congruence].
      destruct (int64Field pv); [|congruence]. cbv zeta.
      destruct H6 as [H6|H6]; apply Hz in H6; rewrite H6; [|rewrite orb_true_r]; reflexivity.
  - intros m pv Hmiss. unfold getMetadata. cbn [propMetadata propPosition].
    destruct pv as [pv|]; [|eexists; reflexivity].
    destruct Hmiss as [H|H]; rewrite (lookupOpt_none _ _ H); [eexists; reflexivity|].
    destruct (int64Field (lookupV m "mpris:length")); [|eexists; reflexivity].
    destruct (int64Field pv); eexists; reflexivity.
Qed.

Lemma getMetadata_outcomes_witness :
  isPanic (getMetadata quotedVariantString (props noAlbumTick)) = true /\
  exists e, getMetadata quotedVariantString
              {| propMetadata := Some (VDict [("xesam:artist", VStringArray ["Artist"])]);
                 propPosition := Some (VInt64 0) |} = Err e.
Proof.
  split.
  - apply (proj2 (proj1 (proj2 (getMetadata_outcomes quotedVariantString)) (props noAlbumTick))).
    exists [("mpris:length", VInt64 200000000); ("xesam:artist", VStringArray ["Artist"]);
            ("xesam:title", VString "Song")], (VInt64 30000000), ["Artist"].
    repeat split; try discriminate. right. reflexivity.
  - exact (proj2 (proj2 (getMetadata_outcomes quotedVariantString))
             [("xesam:artist", VStringArray ["Artist"])] (Some (VInt64 0))
             (or_introl eq_refl)).
Defined.

(** X14: [getMetadata] reads only five entries of the dictionary (length,
    artist, title, album, art URL): removing any other entries never changes
    its outcome.  On success the artist is the first element of the artist
    array, or ["Unknown Artist"] when the array is empty, and the title and
    album are the string forms of their entries. *)
Theorem getMetadata_reads_five_keys (vs : dbusValue -> string)
    (f : string * dbusValue -> bool) (m : list (string * dbusValue))
    (pv : option dbusValue) :
  (forall k v, In k ["mpris:length"; "xesam:artist"; "xesam:title"; "xesam:album";
                     "mpris:artUrl"] -> f (k, v) = true) ->
  getMetadata vs {| propMetadata := Some (VDict (filter f m)); propPosition := pv |}
  = getMetadata vs {| propMetadata := Some (VDict m); propPosition := pv |} /\
  (forall md,
     getMetadata vs {| propMetadata := Some (VDict m); propPosition := pv |} = Ok md ->
     exists arts, lookupV m "xesam:artist" = VStringArray arts /\
                  Artist md = hd "Unknown Artist" arts /\
                  Title md = vs (lookupV m "xesam:title") /\
                  Album md = vs (lookupV m "xesam:album")).
Proof.
  intros Hf.
  assert (Hk : forall k, In k ["mpris:length"; "xesam:artist"; "xesam:title"; "xesam:album";
                               "mpris:artUrl"] -> forall v, f (k, v) = true)
    by (intros k Hin v; apply Hf, Hin).
  split.
  - unfold getMetadata, artURLOf. cbn [propMetadata propPosition].
    rewrite (lookupV_filter f m "mpris:length"), (lookupV_filter f m "xesam:artist"),
      (lookupV_filter f m "xesam:title"), (lookupV_filter f m "xesam:album"),
      (lookupOpt_filter f m "mpris:artUrl")
      by (apply Hk; simpl; tauto).
    reflexivity.
  - intros md. unfold getMetadata. cbn [propMetadata propPosition].
    destruct pv as [pv|]; [|discriminate].
    destruct (int64Field (lookupV m "mpris:length")); [|discriminate].
    destruct (int64Field pv); [|discriminate].
    destruct (lookupV m "xesam:artist") as [| | | |arts| |]; try discriminate.
    cbv zeta. destruct (isZeroVariant _ || isZeroVariant _); [discriminate|].
    intros H. injection H as <-. exists arts. cbn [Artist Title Album].
    repeat split; destruct arts; reflexivity.
Qed.

Lemma getMetadata_reads_five_keys_witness :
  getMetadata quotedVariantString
    {| propMetadata := Some (VDict (filter (fun kv => negb (String.eqb (fst kv) "xesam:comment"))
                                    [("xesam:comment", VInt64 7);
                                     ("mpris:length", VInt64 200000000);
                                     ("xesam:artist", VStringArray []);
                                     ("xesam:title", VString "Song");
                                     ("xesam:album", VString "Album")]));
       propPosition := Some (VInt64 0) |}
  = getMetadata quotedVariantString
      {| propMetadata := Some (VDict [("xesam:comment", VInt64 7);
                                      ("mpris:length", VInt64 200000000);
                                      ("xesam:artist", VStringArray []);
                                      ("xesam:title", VString "Song");
                                      ("xesam:album", VString "Album")]);
         propPosition := Some (VInt64 0) |}.
Proof.
  apply (getMetadata_reads_five_keys quotedVariantString
           (fun kv => negb (String.eqb (fst kv) "xesam:comment"))).
  intros k v Hin. simpl in Hin.
  repeat (destruct Hin as [<-|Hin]; [reflexivity|]). contradiction.
Defined.

(** ** Time text *)

(** [formatTime] of a non-negative number of seconds decodes back to it. *)
Lemma parseTime_formatTime (s : Z) : 0 <= s -> parseTime (formatTime s) = Some s.
Proof.
  intros Hs. unfold formatTime, GoInt.div, GoInt.rem.
  rewrite Z.quot_div_nonneg, Z.rem_mod_nonneg by lia.
  destruct (toUint_fmt2 (s / 60) ltac:(apply Z.div_pos; lia)) as [d1 [H1 E1]].
  destruct (toUint_fmt2 (s mod 60) ltac:(apply Z.mod_pos_bound; lia)) as [d2 [H2 E2]].
  unfold parseTime. rewrite (splitColon_digits _ _ d1 H1), H1, H2, E1, E2.
  f_equal. pose proof (Z.div_mod s 60). lia.
Qed.

(** X15: [formatTime] loses nothing on non-negative input: the [mm:ss]
    text (minutes not capped at two digits) reads back as the number of
    seconds, so two different non-negative times never show the same
    text. *)
Theorem formatTime_injective :
  (forall s, 0 <= s -> parseTime (formatTime s) = Some s) /\
  (forall a b, 0 <= a -> 0 <= b -> formatTime a = formatTime b -> a = b).
Proof.
  split; [exact parseTime_formatTime|].
  intros a b Ha Hb E.
  pose proof (parseTime_formatTime a Ha) as Pa.
  rewrite E, parseTime_formatTime in Pa by exact Hb.
  injection Pa as ->. reflexivity.
Qed.

Lemma formatTime_injective_witness : parseTime (formatTime 6125) = Some 6125.
Proof. exact (proj1 formatTime_injective 6125 ltac:(lia)). Defined.

(** ** The two versions of the program: main.go and part_000 *)

(** X16: the two [handleKeyboard]s differ only on an arrow key that
    carries the rune ['c']: main.go then centres the content (the rune
    check comes last and overrides the arrow), while part_000 returns from
    the arrow branch and ignores the rune; on every other event they
    agree. *)
Theorem handleKeyboard_impls (sd : SpotifyDisplay) (e : TermEvent) :
  (isArrow (evKey e) && (evCh e =? rune_c) = false ->
     handleKeyboard_part000 sd e = handleKeyboard sd e) /\
  (isArrow (evKey e) = true -> evCh e = rune_c ->
     handleKeyboard sd e = (true, setAlign sd "center" "center") /\
     handleKeyboard_part000 sd e
       = handleKeyboard sd {| evType := evType e; evKey := evKey e; evCh := 0 |}).
Proof.
  unfold handleKeyboard_part000, handleKeyboard. cbn [evKey evCh].
  split.
  - destruct (evKey e); cbn [isArrow andb]; intros H; rewrite ?H; reflexivity.
  - intros Ha Hc. rewrite Hc. cbn [Z.eqb rune_c].
    destruct (evKey e); try discriminate Ha; split; reflexivity.
Qed.

Lemma handleKeyboard_impls_witness :
  handleKeyboard_part000 (newSpotifyDisplay "/cache")
     {| evType := EventKey; evKey := KeyArrowUp; evCh := 99 |}
  = handleKeyboard (newSpotifyDisplay "/cache")
     {| evType := EventKey; evKey := KeyArrowUp; evCh := 0 |}.
Proof.
  exact (proj2 (proj2 (handleKeyboard_impls (newSpotifyDisplay "/cache")
                         {| evType := EventKey; evKey := KeyArrowUp; evCh := 99 |})
                  eq_refl eq_refl)).
Defined.

(** X17: the two fill computations agree whenever the length is positive
    (part_000 has no [Length > 0] guard, so a zero length is left out: its
    quotient is NaN or infinite and the [int] conversion of such a value is
    platform-dependent in Go); they can differ on a negative length. *)
Theorem progress_impls_agree :
  (forall md, 0 < Length md -> progressOf_part000 md = progressOf md) /\
  (exists md, Length md < 0 /\ progressOf_part000 md <> progressOf md).
Proof.
  split; [exact progressOf_part000_agree|].
  exists (mkMeta (-5) (-10)). split; [reflexivity|].
  vm_compute. discriminate.
Qed.

Lemma progress_impls_agree_witness :
  progressOf_part000 (mkMeta 30 200) = progressOf (mkMeta 30 200).
Proof. exact (proj1 progress_impls_agree (mkMeta 30 200) ltac:(simpl; lia)). Defined.

(** X18: for a positive length both versions write the same bytes for
    the progress area (two blanked rows, the bar, the centred time text),
    except that main.go's [moveCursor] adds 1 to the column and part_000's
    [\033[row;colH] does not: part_000 draws the area one column further
    left. *)
Theorem progress_area_columns (co : string -> string) (md : Metadata) (term : TerminalSize) :
  0 < Length md ->
  let bar := progressBar (progressOf md) in
  let tt := formatTime (Position md) ++ "/" ++ formatTime (Length md) in
  renderOps co (drawProgressBar md term)
    = progressRows (GoInt.add (startY term) 5)
                   (GoInt.add (GoInt.add (startX term) 20) 1) bar tt /\
  renderOps co (drawProgressBar_part000 md term)
    = progressRows (GoInt.add (startY term) 5) (GoInt.add (startX term) 20) bar tt.
Proof.
  intros Hl. cbv zeta.
  assert (Ett : fmtIntZeroPad 2 (GoInt.div (Position md) 60) ++ ":"
                ++ fmtIntZeroPad 2 (GoInt.rem (Position md) 60) ++ "/"
                ++ fmtIntZeroPad 2 (GoInt.div (Length md) 60) ++ ":"
                ++ fmtIntZeroPad 2 (GoInt.rem (Length md) 60)
              = formatTime (Position md) ++ "/" ++ formatTime (Length md)).
  { unfold formatTime. rewrite !string_app_assoc. reflexivity. }
  split.
  - unfold drawProgressBar, renderOps, progressRows. cbv zeta.
    generalize (formatTime (Position md) ++ "/" ++ formatTime (Length md)) as tt.
    generalize (progressBar (progressOf md)) as bar. intros bar tt.
    cbn [fold_right renderOp]. unfold moveCursorSeq.
    rewrite string_app_nil_r, !add_add.
    set (d := GoInt.div _ 2).
    replace (20 + (d + 1)) with (20 + 1 + d) by lia.
    reflexivity.
  - unfold drawProgressBar_part000, renderOps, progressRows. cbv zeta.
    rewrite Ett, (progressOf_part000_agree md Hl).
    generalize (formatTime (Position md) ++ "/" ++ formatTime (Length md)) as tt.
    generalize (progressBar (progressOf md)) as bar. intros bar tt.
    cbn [fold_right renderOp].
    rewrite string_app_nil_r, !string_app_assoc, !add_add.
    reflexivity.
Qed.

Lemma progress_area_columns_witness :
  renderOps (fun _ => "") (drawProgressBar (mkMeta 30 200)
              {| width := 120; height := 40; startX := 30; startY := 29 |})
  = progressRows 34 51 (progressBar (progressOf (mkMeta 30 200)))
      (formatTime 30 ++ "/" ++ formatTime 200).
Proof.
  exact (proj1 (progress_area_columns (fun _ => "") (mkMeta 30 200)
                  {| width := 120; height := 40; startX := 30; startY := 29 |}
                  ltac:(simpl; lia))).
Defined.
